(** * datatables-query: the request compiler and the query orchestrator

    A shallow embedding of [src/index.js].  Every function of the module
    ([getSearchableFields], [isNaNorUndefined], [escapeRegex],
    [buildFindParameters], [buildSortParameters], [buildSelectParameters],
    [run]) is transcribed below under its own name, followed by the
    properties of the specification that were checked against it.

    Conventions of the embedding.
    - JavaScript values are the trees of [value]; an object is the list of
      its own properties in the order they were added (the module never
      enumerates an object, so the order is a matter of representation).
      The prototype of an object is not recorded: the module reads
      properties under fixed names that [Object.prototype] does not carry,
      and it never reads an object again after a write that can change
      its prototype.  The one write that the prototype decides is a write
      under the computed name [__proto__], see [assign_prop].
    - Strings are sequences of 8-bit characters.
    - Numbers are IEEE-754 values ([spec_float]).
    - Abrupt completion is explicit ([completion]).
    - The only object the module ever writes to that its caller can see is
      the one bound to [params.find]; the heap is therefore represented by
      the descriptor itself and a compiled filter is a [handle]: either that
      very object ([Shared]) or an object allocated by the call ([Fresh]).
    - Conversions performed by the runtime rather than by the module
      (text to number, number to text, [JSON.parse]) are the operations of
      the class [Engine]; the theorems hold for every engine.
    - The patterns handed to [RegExp] are given their meaning by [parse]
      and [matchk], for the part of the pattern language they use.
    - The document store is a [Model]: two operations over a store state,
      each of which resolves or fails. *)

From Stdlib Require Import List String Ascii Bool ZArith Lia PeanoNat.
From Corelib Require Import SpecFloat.
Import ListNotations.
Local Open Scope string_scope.
Local Open Scope list_scope.

Set Implicit Arguments.
Set Warnings "-register-all".
Unset Elimination Schemes.

(** ** Values *)

Definition number := spec_float.

Inductive value : Type :=
| VUndefined
| VNull
| VBool (b : bool)
| VNum (n : number)
| VStr (s : string)
| VRegExp (source flags : string)
| VArr (elems : list value)
| VObj (props : list (string * value)).

Set Elimination Schemes.

Definition props := list (string * value).

Definition NaN : number := S754_nan.
Definition num_zero : number := S754_zero false.
Definition num_one : number := S754_finite false 1 0.
Definition num_minus_one : number := S754_finite true 1 0.

Definition number_of_nat (n : nat) : number :=
  match n with
  | O => S754_zero false
  | S _ => S754_finite false (Pos.of_nat n) 0
  end.

Definition is_nan (n : number) : bool :=
  match n with S754_nan => true | _ => false end.

Definition is_zero (n : number) : bool :=
  match n with S754_zero _ => true | _ => false end.

(** [x >= n] for a number [x] and an array length [n]. *)
Definition number_ge_nat (x : number) (n : nat) : bool :=
  match x with
  | S754_nan => false
  | S754_infinity neg => negb neg
  | S754_zero _ => Nat.eqb n 0
  | S754_finite true _ _ => false
  | S754_finite false m e =>
      match e with
      | Zneg k => (Z.of_nat n * 2 ^ Zpos k <=? Zpos m)%Z
      | _ => (Z.of_nat n <=? Zpos m * 2 ^ e)%Z
      end
  end.

(** The array index a number denotes when used as a property key: the
    non-negative integers (and [-0], whose key is ["0"]). *)
Definition array_index (x : number) : option nat :=
  match x with
  | S754_zero _ => Some O
  | S754_finite false m e =>
      match e with
      | Zneg k =>
          if (Zpos m mod 2 ^ Zpos k =? 0)%Z
          then Some (Z.to_nat (Zpos m / 2 ^ Zpos k))
          else None
      | _ => Some (Z.to_nat (Zpos m * 2 ^ e))
      end
  | _ => None
  end.

(** ToBoolean. *)
Definition truthy (v : value) : bool :=
  match v with
  | VUndefined | VNull => false
  | VBool b => b
  | VNum n => negb (is_nan n || is_zero n)
  | VStr s => negb (String.eqb s "")
  | VRegExp _ _ | VArr _ | VObj _ => true
  end.

Definition isArray (v : value) : bool :=
  match v with VArr _ => true | _ => false end.

(** [v === 'lit'] *)
Definition is_str (lit : string) (v : value) : bool :=
  match v with VStr s => String.eqb s lit | _ => false end.

(** ** Completions *)

Inductive exn := TypeError | SyntaxError.

(** [Unsupported] marks the one situation the value trees cannot express:
    a named property written on an array or a RegExp. *)
Inductive completion (A : Type) : Type :=
| Return (a : A)
| Throw (e : exn)
| Unsupported.

Arguments Return {A} a.
Arguments Throw {A} e.
Arguments Unsupported {A}.

Definition bind {A B} (c : completion A) (k : A -> completion B) : completion B :=
  match c with
  | Return a => k a
  | Throw e => Throw e
  | Unsupported => Unsupported
  end.

Notation "x <- c ;; k" := (bind c (fun x => k))
  (at level 61, c at next level, right associativity).

(** [Array.prototype.map] with a callback that may throw. *)
Definition mapM {A B} (f : A -> completion B) : list A -> completion (list B) :=
  fix go (l : list A) : completion (list B) :=
    match l with
    | [] => Return []
    | a :: l' => b <- f a ;; bs <- go l' ;; Return (b :: bs)
    end.

(** [Array.prototype.filter] with a callback that may throw. *)
Fixpoint filterM {A} (f : A -> completion bool) (l : list A) : completion (list A) :=
  match l with
  | [] => Return []
  | a :: l' =>
      b <- f a ;; r <- filterM f l' ;; Return (if b then a :: r else r)
  end.

(** [Array.prototype.some] with a callback that may throw. *)
Fixpoint someM {A} (f : A -> completion bool) (l : list A) : completion bool :=
  match l with
  | [] => Return false
  | a :: l' => b <- f a ;; if b then Return true else someM f l'
  end.

(** ** Own properties *)

Fixpoint lookup (k : string) (o : props) : option value :=
  match o with
  | [] => None
  | (k', v) :: o' => if String.eqb k k' then Some v else lookup k o'
  end.

(** [o[k] = v]: an existing key keeps its place, a new one goes last. *)
Fixpoint set_prop (k : string) (v : value) (o : props) : props :=
  match o with
  | [] => [(k, v)]
  | (k', v') :: o' =>
      if String.eqb k k' then (k, v) :: o' else (k', v') :: set_prop k v o'
  end.

(** [o[k] = v] for a computed name [k] on an ordinary object.  The name
    [__proto__] is special: unless the object has a property of its own
    under that name, the write reaches the setter inherited from
    [Object.prototype], which changes the prototype or does nothing, and
    no property is created. *)
Definition assign_prop (k : string) (v : value) (o : props) : props :=
  if String.eqb k "__proto__" then
    match lookup k o with
    | Some _ => set_prop k v o
    | None => o
    end
  else set_prop k v o.

(** [delete o[k]] *)
Fixpoint delete_prop (k : string) (o : props) : props :=
  match o with
  | [] => []
  | (k', v') :: o' =>
      if String.eqb k k' then delete_prop k o' else (k', v') :: delete_prop k o'
  end.

(** [v.k] for a fixed property name [k]. *)
Definition get (v : value) (k : string) : completion value :=
  match v with
  | VUndefined | VNull => Throw TypeError
  | VObj o => Return (match lookup k o with Some x => x | None => VUndefined end)
  | VArr l =>
      Return (if String.eqb k "length" then VNum (number_of_nat (List.length l))
              else VUndefined)
  | VStr s =>
      Return (if String.eqb k "length" then VNum (number_of_nat (String.length s))
              else VUndefined)
  | VBool _ | VNum _ | VRegExp _ _ => Return VUndefined
  end.

(** [a[i]] for an array [a] and a number [i]. *)
Definition get_index (l : list value) (i : number) : value :=
  match array_index i with
  | Some n => nth n l VUndefined
  | None => VUndefined
  end.

(** ** The runtime's conversions *)

(** What the module delegates to the ECMAScript runtime: the number a
    string denotes ([Number] on a string), the string of a number, the
    string of a RegExp given its pattern and flags, and [JSON.parse],
    which answers [None] for a text that is not JSON (a [SyntaxError]).
    The two laws are the readings of the JSON literals [true] and
    [false]. *)
Class Engine : Type := {
  StringToNumber : string -> number;
  NumberToString : number -> string;
  RegExpToString : string -> string -> string;
  JSON_parse : string -> option value;
  JSON_parse_true : JSON_parse "true" = Some (VBool true);
  JSON_parse_false : JSON_parse "false" = Some (VBool false)
}.

Section Conversions.
Context {E : Engine}.

(** ToString.  An object with an own (hence non-callable) [toString]
    property has no primitive value; an array joins its elements. *)
Fixpoint ToString (v : value) : completion string :=
  match v with
  | VUndefined => Return "undefined"
  | VNull => Return "null"
  | VBool b => Return (if b then "true" else "false")
  | VNum n => Return (NumberToString n)
  | VStr s => Return s
  | VRegExp src fl => Return (RegExpToString src fl)
  | VArr l =>
      parts <- mapM (fun x => match x with
                              | VUndefined | VNull => Return EmptyString
                              | _ => ToString x
                              end) l ;;
      Return (String.concat "," parts)
  | VObj o =>
      match lookup "toString" o with
      | Some _ => Throw TypeError
      | None => Return "[object Object]"
      end
  end.

(** ToNumber, i.e. [Number(v)]. *)
Definition ToNumber (v : value) : completion number :=
  match v with
  | VUndefined => Return NaN
  | VNull => Return num_zero
  | VBool b => Return (if b then num_one else num_zero)
  | VNum n => Return n
  | VStr s => Return (StringToNumber s)
  | VRegExp _ _ | VArr _ | VObj _ =>
      s <- ToString v ;; Return (StringToNumber s)
  end.

(** A value used as a property key. *)
Definition ToPropertyKey (v : value) : completion string := ToString v.

End Conversions.

(** ** Text Escaper *)

(** The characters of the table [_re_escape_regex] is built from. *)
Definition _re_escape_regex : list ascii :=
  ["/"; "."; "*"; "+"; "?"; "|"; "("; ")"; "["; "]"; "{"; "}"; "\"; "$"; "^"; "-"]%char.

Definition is_meta (c : ascii) : bool :=
  existsb (Ascii.eqb c) _re_escape_regex.

(** [s.replace(_re_escape_regex, '\\$1')] *)
Fixpoint escape_text (s : string) : string :=
  match s with
  | EmptyString => EmptyString
  | String c s' =>
      if is_meta c then String "\" (String c (escape_text s'))
      else String c (escape_text s')
  end.

(** [escapeRegex]: only a string has a [replace] method. *)
Definition escapeRegex (val : value) : completion string :=
  match val with
  | VStr s => Return (escape_text s)
  | _ => Throw TypeError
  end.

(** ** Searchable-Field Extractor and Parameter Validator *)

Section Extractor.
Context {E : Engine}.

(** The callback of [filter]: [JSON.parse(column.searchable)], read as a
    condition. *)
Definition searchable_flag (column : value) : completion bool :=
  s <- get column "searchable" ;;
  text <- ToString s ;;
  match JSON_parse text with
  | Some j => Return (truthy j)
  | None => Throw SyntaxError
  end.

Definition getSearchableFields (params : value) : completion (list value) :=
  columns <- get params "columns" ;;
  match columns with
  | VArr cols =>
      kept <- filterM searchable_flag cols ;;
      mapM (fun column => get column "data") kept
  | _ => Throw TypeError
  end.

Definition is_nullish (v : value) : bool :=
  match v with VUndefined | VNull => true | _ => false end.

Definition isNaNorUndefined (args : list value) : completion bool :=
  someM (fun arg => n <- ToNumber arg ;; Return (is_nan n || is_nullish arg)) args.

End Extractor.

(** ** Smart search: the words of the search text *)

Definition dquote : ascii := "034"%char.
Definition space : ascii := " "%char.

(** Line terminators, which [.] does not match. *)
Definition is_line_terminator (c : ascii) : bool :=
  Ascii.eqb c "010"%char || Ascii.eqb c "013"%char.

Fixpoint span (p : ascii -> bool) (s : string) : string * string :=
  match s with
  | EmptyString => (EmptyString, EmptyString)
  | String c s' =>
      if p c then let (run, rest) := span p s' in (String c run, rest)
      else (EmptyString, s)
  end.

Definition not_dquote (c : ascii) : bool := negb (Ascii.eqb c dquote).
Definition not_space (c : ascii) : bool := negb (Ascii.eqb c space).

(** The match of the word pattern that starts at the head of [s], if any:
    first alternative, a double quote, one or more characters other than a
    double quote, a double quote; second alternative, one or more
    characters other than a space. *)
Definition match_at (s : string) : option string :=
  let quoted :=
    match s with
    | String c s1 =>
        if Ascii.eqb c dquote then
          match span not_dquote s1 with
          | (String _ _ as run, String _ _) =>
              Some (String dquote (run ++ String dquote EmptyString))
          | _ => None
          end
        else None
    | EmptyString => None
    end in
  match quoted with
  | Some m => Some m
  | None =>
      match span not_space s with
      | (String _ _ as run, _) => Some run
      | _ => None
      end
  end.

(** All matches, left to right: after a match the scan resumes behind it
    ([skip] counts the characters of the current match still to pass). *)
Fixpoint scan_matches (skip : nat) (s : string) : list string :=
  match s with
  | EmptyString => []
  | String _ s' =>
      match skip with
      | S k => scan_matches k s'
      | O =>
          match match_at s with
          | Some m => m :: scan_matches (String.length m - 1) s'
          | None => scan_matches 0 s'
          end
      end
  end.

(** [searchText.match(word pattern, global) || ['']] *)
Definition match_words (searchText : string) : list string :=
  match scan_matches 0 searchText with
  | [] => [EmptyString]
  | ms => ms
  end.

Fixpoint forallb_string (p : ascii -> bool) (s : string) : bool :=
  match s with
  | EmptyString => true
  | String c s' => p c && forallb_string p s'
  end.

(** [s] without its last character, when that character is [c]. *)
Fixpoint drop_last (c : ascii) (s : string) : option string :=
  match s with
  | EmptyString => None
  | String a EmptyString => if Ascii.eqb a c then Some EmptyString else None
  | String a s' =>
      match drop_last c s' with
      | Some r => Some (String a r)
      | None => None
      end
  end.

(** The group of the second [word.match]: the word between its first and
    its last character when both are double quotes and nothing between
    them is a line terminator. *)
Definition quoted_body (word : string) : option string :=
  match word with
  | String c rest =>
      if Ascii.eqb c dquote then
        match drop_last dquote rest with
        | Some mid =>
            if forallb_string (fun a => negb (is_line_terminator a)) mid
            then Some mid else None
        | None => None
        end
      else None
  | EmptyString => None
  end.

(** The final [word.replace]: the first double quote goes. *)
Fixpoint remove_first_dquote (s : string) : string :=
  match s with
  | EmptyString => EmptyString
  | String c s' =>
      if Ascii.eqb c dquote then s' else String c (remove_first_dquote s')
  end.

(** The callback of [map] over the words. *)
Definition strip_word (word : string) : string :=
  let word' :=
    match word with
    | String c _ =>
        if Ascii.eqb c dquote then
          match quoted_body word with Some m1 => m1 | None => word end
        else word
    | EmptyString => word
    end in
  remove_first_dquote word'.

Definition smart_words (searchText : string) : list string :=
  map strip_word (match_words searchText).

(** ['^(?=.*?' + words.join(')(?=.*?') + ').*$'] *)
Definition smart_source (words : list string) : string :=
  "^(?=.*?" ++ String.concat ")(?=.*?" words ++ ").*$".

(** ** Handles on the filter object *)

(** A compiled filter is the object bound to [params.find] itself
    ([Shared]) or an object the call allocated ([Fresh]). *)
Inductive handle : Type :=
| Shared
| Fresh (o : value).

(** The object a handle denotes in the descriptor [params]. *)
Definition deref (params : value) (h : handle) : value :=
  match h with
  | Shared =>
      match params with
      | VObj ps => match lookup "find" ps with Some v => v | None => VUndefined end
      | _ => VUndefined
      end
  | Fresh o => o
  end.

(** The heap after the object behind [h] has become [o']. *)
Definition assign (params : value) (h : handle) (o' : value) : handle * value :=
  match h with
  | Shared =>
      (Shared, match params with
               | VObj ps => VObj (set_prop "find" o' ps)
               | _ => params
               end)
  | Fresh _ => (Fresh o', params)
  end.

(** [target[k] = v] in strict mode.  On a primitive the write throws,
    except under [__proto__], where the inherited setter is called and
    returns without effect. *)
Definition write (target : value) (k : string) (v : value) : completion value :=
  match target with
  | VObj o => Return (VObj (assign_prop k v o))
  | VArr _ | VRegExp _ _ => Unsupported
  | VUndefined | VNull => Throw TypeError
  | VBool _ | VNum _ | VStr _ =>
      if String.eqb k "__proto__" then Return target else Throw TypeError
  end.

(** [delete target[k]] for a named property [k]. *)
Definition delete (target : value) (k : string) : value :=
  match target with
  | VObj o => VObj (delete_prop k o)
  | _ => target
  end.

(** [params.find || {}], for a descriptor whose properties can be read. *)
Definition base_filter (params : value) : value :=
  match get params "find" with
  | Return find => if truthy find then find else VObj []
  | _ => VObj []
  end.

(** ** Filter Compiler *)

Section Compilers.
Context {E : Engine}.

(** The pattern of step 5, as the RegExp object it becomes. *)
Definition search_regex (smart : value) (searchText : string) : value :=
  if truthy smart
  then VRegExp (smart_source (smart_words searchText)) "i"
  else VRegExp searchText "i".

(** The body of [buildFindParameters]: the value returned, with the
    descriptor as the call leaves it. *)
Definition buildFindParameters_body (params : value)
  : completion (option handle * value) :=
  if negb (truthy params) then Return (None, params) else
  columns <- get params "columns" ;;
  if negb (truthy columns) then Return (None, params) else
  search <- get params "search" ;;
  if negb (truthy search) then Return (None, params) else
  value <- get search "value" ;;
  if negb (truthy value) && negb (is_str EmptyString value)
  then Return (None, params) else
  searchText <- escapeRegex value ;;
  find <- get params "find" ;;
  let findParameters := if truthy find then Shared else Fresh (VObj []) in
  if String.eqb searchText EmptyString
  then Return (Some findParameters, params) else
  smart <- get search "smart" ;;
  let searchRegex := search_regex smart searchText in
  searchableFields <- getSearchableFields params ;;
  match searchableFields with
  | [field] =>
      key <- ToPropertyKey field ;;
      o' <- write (deref params findParameters) key searchRegex ;;
      let (h, params') := assign params findParameters o' in
      Return (Some h, params')
  | _ =>
      searchOrArray <-
        mapM (fun field =>
                key <- ToPropertyKey field ;;
                write (VObj []) key searchRegex) searchableFields ;;
      prevOr <- get (deref params findParameters) "$or" ;;
      o' <- (if truthy prevOr then
               write (delete (deref params findParameters) "$or") "$and"
                 (VArr [VObj [("$or", VArr searchOrArray)];
                        VObj [("$or", prevOr)]])
             else
               write (deref params findParameters) "$or" (VArr searchOrArray)) ;;
      let (h, params') := assign params findParameters o' in
      Return (Some h, params')
  end.

(** [buildFindParameters params]: how the call completes, and the
    descriptor afterwards.  Every abrupt completion happens before the
    first write. *)
Definition buildFindParameters (params : value)
  : completion (option handle) * value :=
  match buildFindParameters_body params with
  | Return (r, params') => (Return r, params')
  | Throw e => (Throw e, params)
  | Unsupported => (Unsupported, params)
  end.

(** ** Sort Compiler *)

Definition buildSortParameters (params : value) : completion value :=
  if negb (truthy params) then Return VNull else
  order <- get params "order" ;;
  match order with
  | VArr (order0 :: _) =>
      column <- get order0 "column" ;;
      sortColumn <- ToNumber column ;;
      sortOrder <- get order0 "dir" ;;
      invalid <- isNaNorUndefined [VNum sortColumn] ;;
      if invalid then Return VNull else
      columns <- get params "columns" ;;
      match columns with
      | VArr cols =>
          if number_ge_nat sortColumn (List.length cols) then Return VNull else
          orderable <- get (get_index cols sortColumn) "orderable" ;;
          if is_str "false" orderable then Return VNull else
          sortField <- get (get_index cols sortColumn) "data" ;;
          if negb (truthy sortField) then Return VNull else
          key <- ToPropertyKey sortField ;;
          write (VObj []) key (VNum (if is_str "asc" sortOrder
                                     then num_one else num_minus_one))
      | _ => Return VNull
      end
  | _ => Return VNull
  end.

(** ** Projection Compiler *)

Fixpoint select_fields (selectParams : props) (cols : list value)
  : completion props :=
  match cols with
  | [] => Return selectParams
  | column :: cols' =>
      d <- get column "data" ;;
      key <- ToPropertyKey d ;;
      select_fields (assign_prop key (VNum num_one) selectParams) cols'
  end.

Definition buildSelectParameters (params : value) : completion value :=
  if negb (truthy params) then Return VNull else
  columns <- get params "columns" ;;
  match columns with
  | VArr cols => o <- select_fields [] cols ;; Return (VObj o)
  | _ => Return VNull
  end.

End Compilers.

(** ** Query Orchestrator *)

(** How a store operation settles. *)
Inductive settled : Type :=
| Resolved (v : value)
| Failed (err : value).

(** The query [Model.find(f).select(p).limit(l).skip(s).sort(o)], with the
    argument of [populate] when that call is made. *)
Record query : Type := {
  q_filter : value;
  q_select : value;
  q_limit : number;
  q_skip : number;
  q_sort : value;
  q_populate : option value
}.

(** The store-model handle, over a store whose state is [S]. *)
Record Model (S : Type) : Type := {
  countDocuments : value -> S -> settled * S;
  exec : query -> S -> settled * S
}.

Inductive call : Type :=
| CountDocuments (filter : value)
| FindExec (q : query).

(** What the promise is rejected with: an [Error] carrying only a message,
    an exception raised inside the executor, or a plain value. *)
Inductive rejection : Type :=
| ErrorObject (message : string)
| Raised (e : exn)
| Plain (v : value).

Inductive outcome : Type :=
| Threw (e : exn)
| OutOfModel
| Rejected (r : rejection)
| Fulfilled (envelope : value).

(** One call of the function [run(Model)] returns: its outcome, the store
    operations issued, in order, the store afterwards and the descriptor
    afterwards. *)
Record result (S : Type) : Type := {
  res_outcome : outcome;
  res_calls : list call;
  res_store : S;
  res_params : value
}.

Definition pagination_message : string :=
  "Some parameters are missing or in a wrong state. " ++
  "Could be any of draw, start or length".

Definition query_message : string :=
  "Invalid findParameters or sortParameters or selectParameters".

Section Orchestrator.
Context {E : Engine} {S : Type}.
Variable M : Model S.

(** [Number(params.draw)], [Number(params.start)], [Number(params.length)] *)
Definition coerce_pagination (params : value)
  : completion (number * number * number) :=
  d <- get params "draw" ;;
  draw <- ToNumber d ;;
  s <- get params "start" ;;
  start <- ToNumber s ;;
  l <- get params "length" ;;
  length <- ToNumber l ;;
  Return (draw, start, length).

(** [!findParameters] *)
Definition handle_falsy (params : value) (h : option handle) : bool :=
  match h with
  | None => true
  | Some h => negb (truthy (deref params h))
  end.

(** The chain of store operations, from the first count on. *)
Definition store_chain (params : value) (draw start length : number)
    (findParameters : handle) (sortParameters selectParameters : value)
    (s : S) : result S :=
  let base := base_filter params in
  let filter := deref params findParameters in
  match countDocuments M base s with
  | (Failed err, s1) =>
      {| res_outcome := Rejected (Plain (VObj [("error", err)]));
         res_calls := [CountDocuments base];
         res_store := s1; res_params := params |}
  | (Resolved recordsTotal, s1) =>
      match countDocuments M filter s1 with
      | (Failed err, s2) =>
          {| res_outcome := Rejected (Plain (VObj [("error", err)]));
             res_calls := [CountDocuments base; CountDocuments filter];
             res_store := s2; res_params := params |}
      | (Resolved recordsFiltered, s2) =>
          let populate :=
            match get params "populate" with Return v => v | _ => VUndefined end in
          let q := {| q_filter := filter;
                      q_select := selectParameters;
                      q_limit := length;
                      q_skip := start;
                      q_sort := sortParameters;
                      q_populate := if truthy populate then Some populate
                                    else None |} in
          match exec M q s2 with
          | (Failed err, s3) =>
              {| res_outcome := Rejected (Plain (VObj [("error", err)]));
                 res_calls := [CountDocuments base; CountDocuments filter;
                               FindExec q];
                 res_store := s3; res_params := params |}
          | (Resolved results, s3) =>
              {| res_outcome :=
                   Fulfilled (VObj [("draw", VNum draw);
                                    ("recordsTotal", recordsTotal);
                                    ("recordsFiltered", recordsFiltered);
                                    ("data", results)]);
                 res_calls := [CountDocuments base; CountDocuments filter;
                               FindExec q];
                 res_store := s3; res_params := params |}
          end
      end
  end.

Definition stop (o : outcome) (params : value) (s : S) : result S :=
  {| res_outcome := o; res_calls := []; res_store := s; res_params := params |}.

Definition abrupt {A} (c : completion A) : outcome :=
  match c with
  | Throw e => Threw e
  | _ => OutOfModel
  end.

(** The function [run(Model)] returns, applied to [params] with the store
    in state [s]. *)
Definition run (params : value) (s : S) : result S :=
  match coerce_pagination params with
  | Return (draw, start, length) =>
      match buildFindParameters params with
      | (Return findParameters, params1) =>
          match buildSortParameters params1 with
          | Return sortParameters =>
              match buildSelectParameters params1 with
              | Return selectParameters =>
                  match isNaNorUndefined [VNum draw; VNum start; VNum length] with
                  | Return true =>
                      stop (Rejected (ErrorObject pagination_message)) params1 s
                  | Return false =>
                      match findParameters with
                      | Some h =>
                          if handle_falsy params1 findParameters
                             || negb (truthy sortParameters)
                             || negb (truthy selectParameters)
                          then stop (Rejected (ErrorObject query_message)) params1 s
                          else store_chain params1 draw start length h
                                 sortParameters selectParameters s
                      | None =>
                          stop (Rejected (ErrorObject query_message)) params1 s
                      end
                  | Throw e => stop (Rejected (Raised e)) params1 s
                  | Unsupported => stop OutOfModel params1 s
                  end
              | c => stop (abrupt c) params1 s
              end
          | c => stop (abrupt c) params1 s
          end
      | (c, params1) => stop (abrupt c) params1 s
      end
  | c => stop (abrupt c) params s
  end.

End Orchestrator.

(** ** The patterns the filter compiler emits, and what they match

    The module hands its patterns to [RegExp]; this section gives the
    syntax and the matching rule of the part of the pattern language those
    patterns are written in: pattern characters, the identity escapes of
    the characters of [_re_escape_regex], [.], [^], [$], the quantifiers
    [*] and [*?] and the lookahead [(?= )].  [parse] answers [None]
    outside that part. *)

Inductive regex : Type :=
| Eps
| Chr (c : ascii)
| Dot
| Bol
| Eol
| Star (greedy : bool) (r : regex)
| Lookahead (r : regex)
| Seq (r1 r2 : regex).

Definition seq_of (l : list regex) : regex := fold_right Seq Eps l.

Definition quantifiable (r : regex) : bool :=
  match r with Chr _ | Dot => true | _ => false end.

(** [stack] holds the atoms of the enclosing groups, [cur] those of the
    group being read, both latest first. *)
Fixpoint parse_go (stack : list (list regex)) (cur : list regex) (s : string)
  : option regex :=
  match s with
  | EmptyString =>
      match stack with
      | [] => Some (seq_of (rev cur))
      | _ :: _ => None
      end
  | String c s1 =>
      if Ascii.eqb c "\" then
        match s1 with
        | String e s2 => if is_meta e then parse_go stack (Chr e :: cur) s2 else None
        | EmptyString => None
        end
      else if Ascii.eqb c "(" then
        match s1 with
        | String q (String e s3) =>
            if Ascii.eqb q "?" && Ascii.eqb e "="
            then parse_go (cur :: stack) [] s3 else None
        | _ => None
        end
      else if Ascii.eqb c ")" then
        match stack with
        | outer :: stack' =>
            parse_go stack' (Lookahead (seq_of (rev cur)) :: outer) s1
        | [] => None
        end
      else if Ascii.eqb c "*" then
        match cur with
        | a :: cur' =>
            if quantifiable a then
              match s1 with
              | String q s2 =>
                  if Ascii.eqb q "?" then parse_go stack (Star false a :: cur') s2
                  else parse_go stack (Star true a :: cur') s1
              | EmptyString => parse_go stack (Star true a :: cur') s1
              end
            else None
        | [] => None
        end
      else if Ascii.eqb c "." then parse_go stack (Dot :: cur) s1
      else if Ascii.eqb c "^" then parse_go stack (Bol :: cur) s1
      else if Ascii.eqb c "$" then parse_go stack (Eol :: cur) s1
      else if Ascii.eqb c "/" || Ascii.eqb c "-" then parse_go stack (Chr c :: cur) s1
      else if is_meta c then None
      else parse_go stack (Chr c :: cur) s1
  end.

Definition parse (source : string) : option regex := parse_go [] [] source.

(** Canonicalize, for the flag [i]: the upper-case form of a character,
    as a code point (two characters of the 8-bit range have theirs
    outside it). *)
Definition canonicalize (c : ascii) : N :=
  let n := N_of_ascii c in
  if ((97 <=? n) && (n <=? 122))%N then (n - 32)%N
  else if ((224 <=? n) && (n <=? 254) && negb (n =? 247))%N then (n - 32)%N
  else if (n =? 255)%N then 376%N
  else if (n =? 181)%N then 924%N
  else n.

Definition char_matches (ignoreCase : bool) (a c : ascii) : bool :=
  if ignoreCase then N.eqb (canonicalize a) (canonicalize c) else Ascii.eqb a c.

(** The loop of a starred atom: stop here, or match the atom once more,
    provided that consumes input, and go on ([n] bounds the rounds by the
    length of the input). *)
Fixpoint star_loop (step : (bool -> string -> bool) -> bool -> string -> bool)
    (k : bool -> string -> bool) (n : nat) (at0 : bool) (s : string) : bool :=
  k at0 s ||
  match n with
  | O => false
  | S n' =>
      step (fun at0' s' =>
              Nat.ltb (String.length s') (String.length s)
              && star_loop step k n' at0' s')
           at0 s
  end.

(** Backtracking matcher: [matchk i r k at0 s] tries [r] at the head of
    [s] ([at0] tells whether that is the start of the input) and hands
    every way of matching it to the continuation [k]. *)
Fixpoint matchk (ignoreCase : bool) (r : regex) (k : bool -> string -> bool)
    (at0 : bool) (s : string) {struct r} : bool :=
  match r with
  | Eps => k at0 s
  | Chr c =>
      match s with
      | String a s' => char_matches ignoreCase a c && k false s'
      | EmptyString => false
      end
  | Dot =>
      match s with
      | String a s' => negb (is_line_terminator a) && k false s'
      | EmptyString => false
      end
  | Bol => at0 && k at0 s
  | Eol => match s with EmptyString => k at0 s | String _ _ => false end
  | Seq r1 r2 => matchk ignoreCase r1 (matchk ignoreCase r2 k) at0 s
  | Lookahead r1 => matchk ignoreCase r1 (fun _ _ => true) at0 s && k at0 s
  | Star _ r1 => star_loop (matchk ignoreCase r1) k (String.length s) at0 s
  end.

(** A match starting anywhere in the input. *)
Fixpoint search_from (ignoreCase : bool) (r : regex) (at0 : bool) (s : string) : bool :=
  matchk ignoreCase r (fun _ _ => true) at0 s ||
  match s with
  | String _ s' => search_from ignoreCase r false s'
  | EmptyString => false
  end.

(** [re.test(input)] for a RegExp value with no flag or the flag [i]. *)
Definition regex_test (re : value) (input : string) : option bool :=
  match re with
  | VRegExp source flags =>
      match parse source with
      | Some r =>
          if String.eqb flags "i" then Some (search_from true r true input)
          else if String.eqb flags EmptyString then Some (search_from false r true input)
          else None
      | None => None
      end
  | _ => None
  end.

(** [w] is a prefix of [s], up to case when [ignoreCase]. *)
Fixpoint prefix_matches (ignoreCase : bool) (w s : string) : bool :=
  match w, s with
  | EmptyString, _ => true
  | String c w', String a s' => char_matches ignoreCase a c && prefix_matches ignoreCase w' s'
  | String _ _, EmptyString => false
  end.

(** [w] occurs somewhere in [s]. *)
Fixpoint occurs (ignoreCase : bool) (w s : string) : bool :=
  prefix_matches ignoreCase w s ||
  match s with
  | String _ s' => occurs ignoreCase w s'
  | EmptyString => false
  end.

Definition single_line (s : string) : bool :=
  forallb_string (fun a => negb (is_line_terminator a)) s.

(** ** The smart pattern as an expression, and search texts made of items *)

(** The atoms a literal word parses to, and the expression the smart
    pattern of a list of words parses to. *)
Fixpoint chars_of (w : string) : list regex :=
  match w with
  | EmptyString => []
  | String c w' => Chr c :: chars_of w'
  end.

Definition lookahead_of (w : string) : regex :=
  Lookahead (seq_of (Star false Dot :: chars_of w)).

Definition smart_regex (ws : list string) : regex :=
  seq_of (Bol :: map lookahead_of ws ++ [Star true Dot; Eol]).

(** [.*] followed by [k]: [k] holds here, or after one more character
    that is no line terminator. *)
Fixpoint dotstar (k : bool -> string -> bool) (at0 : bool) (s : string) : bool :=
  k at0 s ||
  match s with
  | String a s' => negb (is_line_terminator a) && dotstar k false s'
  | EmptyString => false
  end.

Fixpoint string_drop (n : nat) (s : string) : string :=
  match n, s with
  | O, _ => s
  | S n', String _ s' => string_drop n' s'
  | S _, EmptyString => EmptyString
  end.

(** The items of a search text: plain words, and phrases between double
    quotes. *)
Inductive item : Type :=
| Word (w : string)
| Phrase (p : string).

Definition content (i : item) : string :=
  match i with Word w => w | Phrase p => p end.

Definition show (i : item) : string :=
  match i with
  | Word w => w
  | Phrase p => String dquote (p ++ String dquote EmptyString)
  end.

(** A word is non-empty and holds neither space nor double quote; a
    phrase is non-empty and holds neither double quote nor line
    terminator. *)
Definition well_formed (i : item) : bool :=
  match i with
  | Word w =>
      negb (String.eqb w EmptyString)
      && forallb_string (fun c => not_space c && not_dquote c) w
  | Phrase p =>
      negb (String.eqb p EmptyString)
      && forallb_string (fun c => not_dquote c && negb (is_line_terminator c)) p
  end.

Fixpoint spaces (n : nat) : string :=
  match n with
  | O => EmptyString
  | S n' => String space (spaces n')
  end.

(** A search text laid out as items, each one behind a number of spaces,
    with a number of spaces at the end. *)
Fixpoint layout (l : list (nat * item)) (trailing : nat) : string :=
  match l with
  | [] => spaces trailing
  | (n, i) :: l' => spaces n ++ show i ++ layout l' trailing
  end.

(** Every plain word is followed by a space or ends the text; a phrase
    may be followed by anything. *)
Fixpoint separated (l : list (nat * item)) : bool :=
  match l with
  | [] => true
  | (_, i) :: l' =>
      match i, l' with
      | Word _, (n, _) :: _ => negb (Nat.eqb n 0)
      | _, _ => true
      end && separated l'
  end.

(** ** A small engine, to run the model on concrete descriptors

    [mini_engine] is an engine cut down to what the examples of this file
    use.  It reads the empty text as 0, an optionally signed run of
    decimal digits as that integer and any other text as [NaN]; it prints
    integers in decimal; its JSON reader knows [true], [false], [null] and
    the integers.  On the texts that occur in the examples it answers what
    the runtime answers.  The theorems of this file hold for every engine
    and do not depend on this one. *)

Fixpoint digits_value (acc : N) (s : string) : option N :=
  match s with
  | EmptyString => Some acc
  | String c s' =>
      let n := N_of_ascii c in
      if ((48 <=? n) && (n <=? 57))%N
      then digits_value (acc * 10 + (n - 48))%N s'
      else None
  end.

Definition number_of_N (neg : bool) (n : N) : number :=
  match n with
  | N0 => S754_zero neg
  | Npos p => S754_finite neg p 0
  end.

Definition signed_digits (s : string) : option (bool * N) :=
  match s with
  | EmptyString => None
  | String c s' =>
      let '(neg, body) :=
        if Ascii.eqb c "-" then (true, s')
        else if Ascii.eqb c "+" then (false, s')
        else (false, s) in
      match body with
      | EmptyString => None
      | _ => match digits_value 0 body with
             | Some n => Some (neg, n)
             | None => None
             end
      end
  end.

Definition mini_StringToNumber (s : string) : number :=
  match s with
  | EmptyString => num_zero
  | _ => match signed_digits s with
         | Some (neg, n) => number_of_N neg n
         | None => NaN
         end
  end.

Fixpoint digits_of_nat (fuel n : nat) (acc : string) : string :=
  match fuel with
  | O => acc
  | S fuel' =>
      let acc' := String (ascii_of_nat (48 + n mod 10)) acc in
      if Nat.eqb (n / 10) 0 then acc' else digits_of_nat fuel' (n / 10) acc'
  end.

Definition mini_NumberToString (x : number) : string :=
  match x with
  | S754_nan => "NaN"
  | S754_infinity neg => if neg then "-Infinity" else "Infinity"
  | S754_zero _ => "0"
  | S754_finite neg m e =>
      match array_index (S754_finite false m e) with
      | Some n => (if neg then "-" else EmptyString) ++ digits_of_nat (S n) n EmptyString
      | None => "NaN"
      end
  end.

Definition mini_JSON_parse (s : string) : option value :=
  if String.eqb s "true" then Some (VBool true)
  else if String.eqb s "false" then Some (VBool false)
  else if String.eqb s "null" then Some VNull
  else
    match s with
    | String c _ =>
        if Ascii.eqb c "+" then None
        else
          let body := if Ascii.eqb c "-" then String.substring 1 (String.length s - 1) s else s in
          match body, signed_digits s with
          | String "0" (String _ _), _ => None
          | _, Some (neg, n) => Some (VNum (number_of_N neg n))
          | _, None => None
          end
    | EmptyString => None
    end.

#[local] Instance mini_engine : Engine := {|
  StringToNumber := mini_StringToNumber;
  NumberToString := mini_NumberToString;
  RegExpToString := fun src fl => ("/" ++ src ++ "/" ++ fl)%string;
  JSON_parse := mini_JSON_parse;
  JSON_parse_true := eq_refl;
  JSON_parse_false := eq_refl
|}.

(** ** Concrete descriptors and a store with no document *)

Definition num (n : nat) : value := VNum (number_of_nat n).

Definition column (data : string) (searchable orderable : value) : value :=
  VObj [("data", VStr data); ("searchable", searchable); ("orderable", orderable)].

Definition search (text : string) (smart : bool) : value :=
  VObj [("value", VStr text); ("smart", VBool smart)].

(** A store that holds nothing: every count is 0, every page is empty. *)
Definition empty_store : Model unit := {|
  countDocuments := fun _ s => (Resolved (num 0), s);
  exec := fun _ s => (Resolved (VArr []), s)
|}.

(** [{draw: 1, start: 0, length: 10, columns: [{data: 'name', ...}],
     order: [], search: {value: '', smart: false}}] *)
Definition unsorted_request : value :=
  VObj [("draw", num 1); ("start", num 0); ("length", num 10);
        ("columns", VArr [column "name" (VBool true) (VBool true)]);
        ("order", VArr []);
        ("search", search EmptyString false)].

(** [{draw: 1, start: 0, length: 10,
      columns: [{data: 'name', searchable: false, orderable: true}],
      order: [{column: 0, dir: 'asc'}], search: {value: 'jo', smart: false}}] *)
Definition no_searchable_request : value :=
  VObj [("draw", num 1); ("start", num 0); ("length", num 10);
        ("columns", VArr [column "name" (VBool false) (VBool true)]);
        ("order", VArr [VObj [("column", num 0); ("dir", VStr "asc")]]);
        ("search", search "jo" false)].

(** Two searchable columns and a base filter with a disjunction of its own:
    [find: {active: true, $or: [{role: 'admin'}, {role: 'owner'}]}]. *)
Definition two_columns : value :=
  VArr [column "name" (VStr "true") (VStr "true");
        column "email" (VBool true) (VStr "true")].

Definition base_with_or : props :=
  [("active", VBool true);
   ("$or", VArr [VObj [("role", VStr "admin")]; VObj [("role", VStr "owner")]])].

Definition or_request : value :=
  VObj [("draw", num 1); ("start", num 0); ("length", num 10);
        ("columns", two_columns);
        ("order", VArr [VObj [("column", VStr "0"); ("dir", VStr "asc")]]);
        ("search", search "jo" false);
        ("find", VObj base_with_or)].

(** One searchable column, [name], and a base filter that already
    constrains [name]: [find: {name: 'Bob', age: 3}]. *)
Definition clash_request : value :=
  VObj [("draw", num 1); ("start", num 0); ("length", num 10);
        ("columns", VArr [column "name" (VStr "true") (VStr "true");
                          column "age" (VStr "false") (VStr "true")]);
        ("order", VArr [VObj [("column", VStr "0"); ("dir", VStr "asc")]]);
        ("search", search "jo" false);
        ("find", VObj [("name", VStr "Bob"); ("age", num 3)])].

(** ** A store held in memory

    Enough of a document store to run the orchestrator end to end: a
    document satisfies a filter when it satisfies each of its entries,
    [$or] and [$and] being read as lists of filters and any other key as a
    field with its matcher (a RegExp, or a string or boolean to equal).
    Pages follow the order of the store and keep the projected fields. *)

Definition field_matches (matcher x : value) : bool :=
  match matcher with
  | VRegExp _ _ =>
      match x with
      | VStr s => match regex_test matcher s with Some b => b | None => false end
      | _ => false
      end
  | VStr a => is_str a x
  | VBool a => match x with VBool b => Bool.eqb a b | _ => false end
  | _ => false
  end.

Fixpoint satisfies (doc : props) (filter : value) {struct filter} : bool :=
  match filter with
  | VObj entries =>
      forallb
        (fun entry =>
           if String.eqb (fst entry) "$or" then
             match snd entry with
             | VArr fs => existsb (satisfies doc) fs
             | _ => false
             end
           else if String.eqb (fst entry) "$and" then
             match snd entry with
             | VArr fs => forallb (satisfies doc) fs
             | _ => false
             end
           else
             field_matches (snd entry)
               (match lookup (fst entry) doc with Some x => x | None => VUndefined end))
        entries
  | _ => false
  end.

Definition page (skip limit : number) (docs : list props) : list props :=
  let s := match array_index skip with Some n => n | None => 0 end in
  match array_index limit with
  | Some n => firstn n (skipn s docs)
  | None => skipn s docs
  end.

(** The fields of [doc] that the projection [select] names. *)
Definition project (select : value) (doc : props) : props :=
  match select with
  | VObj sel =>
      List.filter (fun field => match lookup (fst field) sel with
                                | Some _ => true
                                | None => false
                                end) doc
  | _ => doc
  end.

Definition memory_store (docs : list props) : Model unit := {|
  countDocuments := fun filter s =>
    (Resolved (num (List.length (List.filter (fun d => satisfies d filter) docs))), s);
  exec := fun q s =>
    (Resolved (VArr (map (fun d => VObj (project (q_select q) d))
                       (page (q_skip q) (q_limit q)
                             (List.filter (fun d => satisfies d (q_filter q)) docs)))), s)
|}.

(** Three people, two of them active. *)
Definition people : list props :=
  [[("name", VStr "John"); ("active", VBool true)];
   [("name", VStr "Jane"); ("active", VBool true)];
   [("name", VStr "Bob"); ("active", VBool false)]].

(** [{draw: 1, start: 0, length: 10,
      columns: [{data: 'name', searchable: 'true', orderable: 'true'}],
      order: [{column: '0', dir: 'asc'}],
      search: {value: 'jo', smart: false}, find: {active: true}}] *)
Definition active_request : value :=
  VObj [("draw", num 1); ("start", num 0); ("length", num 10);
        ("columns", VArr [column "name" (VStr "true") (VStr "true")]);
        ("order", VArr [VObj [("column", VStr "0"); ("dir", VStr "asc")]]);
        ("search", search "jo" false);
        ("find", VObj [("active", VBool true)])].

(** Requests with a malformed pagination parameter: [draw] missing,
    [length] missing, [start: 'abc']; the last one also carries a column
    whose [searchable] is the text [maybe]. *)
Definition name_column : value := VArr [column "name" (VStr "true") (VStr "true")].
Definition first_ascending : value :=
  VArr [VObj [("column", VStr "0"); ("dir", VStr "asc")]].

Definition missing_draw_request : value :=
  VObj [("start", num 0); ("length", num 10);
        ("columns", name_column); ("order", first_ascending);
        ("search", search "jo" false)].

Definition missing_length_request : value :=
  VObj [("draw", num 1); ("start", num 0);
        ("columns", name_column); ("order", first_ascending);
        ("search", search "jo" false)].

Definition bad_start_request : value :=
  VObj [("draw", num 1); ("start", VStr "abc"); ("length", num 10);
        ("columns", name_column); ("order", first_ascending);
        ("search", search "jo" false)].

Definition unparsable_request : value :=
  VObj [("draw", num 1); ("start", VStr "abc"); ("length", num 10);
        ("columns", VArr [column "name" (VStr "maybe") (VStr "true")]);
        ("order", first_ascending);
        ("search", search "jo" false)].

(** Sort requests: [column: ''] and [column: true]; a column whose [data]
    is the empty string; [column: '-1']; [column: 0.5]. *)
Definition sort_request (column : value) (columns : value) : value :=
  VObj [("draw", num 1); ("start", num 0); ("length", num 10);
        ("columns", columns);
        ("order", VArr [VObj [("column", column); ("dir", VStr "asc")]]);
        ("search", search EmptyString false)].

Definition empty_column_request : value := sort_request (VStr EmptyString) name_column.

Definition true_column_request : value := sort_request (VBool true) two_columns.

Definition empty_data_request : value :=
  sort_request (VStr "0") (VArr [column EmptyString (VStr "true") (VStr "true")]).

Definition negative_index_request : value := sort_request (VStr "-1") name_column.

Definition half : number := S754_finite false 1 (-1).

Definition fractional_index_request : value := sort_request (VNum half) name_column.



(** Search texts: a phrase, two spaces and a word; a quoted run of two
    lines; a quoted run inside a word; and a field value of two lines. *)
Definition phrase_and_word : list (nat * item) :=
  [(0, Phrase "John Doe"); (2, Word "Jane")].

Definition phrase_of_two_lines : string :=
  String dquote ("a" ++ String "010"%char ("b" ++ String dquote EmptyString)).

Definition quote_inside_word : string :=
  "x" ++ String dquote ("a b" ++ String dquote EmptyString).

Definition two_lines : string := "jo" ++ String "010"%char "hn".

(** An empty search text beside a column whose flag is not JSON and a
    base filter; and a search value that is a number. *)
Definition empty_text_request : value :=
  VObj [("draw", num 1); ("start", num 0); ("length", num 10);
        ("columns", VArr [column "name" (VStr "maybe") (VStr "true")]);
        ("order", first_ascending);
        ("search", search EmptyString false);
        ("find", VObj [("active", VBool true)])].

Definition number_search_request : value :=
  VObj [("draw", num 1); ("start", num 0); ("length", num 10);
        ("columns", name_column); ("order", first_ascending);
        ("search", VObj [("value", num 5); ("smart", VBool false)])].

(** [{draw: 1, start: 0, length: 10,
      columns: [{data: 'name', searchable: 'true', orderable: 'true'}],
      order: [{column: '0', dir: 'asc'}],
      search: {value: 'jo', smart: false}, populate: 'owner'}] *)
Definition populated_request : value :=
  VObj [("draw", num 1); ("start", num 0); ("length", num 10);
        ("columns", name_column);
        ("order", first_ascending);
        ("search", search "jo" false);
        ("populate", VStr "owner")].

(** [{draw: 1, start: 0, length: 10, columns: 'name',
      search: {value: 'jo', smart: false}}] *)
Definition string_columns_request : value :=
  VObj [("draw", num 1); ("start", num 0); ("length", num 10);
        ("columns", VStr "name");
        ("search", search "jo" false)].

(** [{draw: 1, start: 0, length: 10,
      columns: [{data: '__proto__', searchable: 'true', orderable: 'true'},
                {data: 'name', searchable: 'true', orderable: 'true'}],
      order: [{column: '0', dir: 'asc'}],
      search: {value: 'jo', smart: false}}] *)
Definition proto_column_request : value :=
  VObj [("draw", num 1); ("start", num 0); ("length", num 10);
        ("columns", VArr [column "__proto__" (VStr "true") (VStr "true");
                          column "name" (VStr "true") (VStr "true")]);
        ("order", first_ascending);
        ("search", search "jo" false)].

(** ** Relations used to state the properties *)



(** Two descriptors that differ at most in the object bound to [find]. *)
Definition same_but_find (p p' : value) : Prop :=
  p' = p \/
  exists ps o', p = VObj ps /\ p' = VObj (set_prop "find" o' ps).

(** The descriptor carries columns and a search object whose text is the
    non-empty string [text] and whose [smart] property is [smart]. *)
Record searching (params : value) (text : string) (smart : value) : Prop := {
  searching_columns :
    exists c, get params "columns" = Return c /\ truthy c = true;
  searching_search :
    exists srch, get params "search" = Return srch /\ truthy srch = true /\
                 get srch "value" = Return (VStr text) /\
                 get srch "smart" = Return smart;
  searching_text : text <> EmptyString
}.

(** The handle the compiler works on. *)
Definition find_handle (params : value) : handle :=
  match get params "find" with
  | Return find => if truthy find then Shared else Fresh (VObj [])
  | _ => Fresh (VObj [])
  end.

(** The compiled filter as an object: what the handle returned by
    [buildFindParameters] denotes once the call is over. *)
Definition compiled_filter {E : Engine} (params : value) : option value :=
  match buildFindParameters params with
  | (Return (Some h), params') => Some (deref params' h)
  | _ => None
  end.


(** What may follow a plain word in a search text: nothing, or a space. *)
Definition ends_item (tail : string) : Prop :=
  tail = EmptyString \/ exists t, tail = String space t.

(** The object [orCondition] built for the field name [k]: the one
    property [k], or none when [k] is [__proto__]. *)
Definition or_condition (pattern : value) (k : string) : value :=
  if String.eqb k "__proto__" then VObj [] else VObj [(k, pattern)].

(** ** Further definitions used to state properties *)

(** The number of characters of [s] that the escaper prefixes. *)
Fixpoint count_meta (s : string) : nat :=
  match s with
  | EmptyString => 0
  | String c s' => (if is_meta c then 1 else 0) + count_meta s'
  end.

Definition no_meta (s : string) : bool :=
  forallb_string (fun c => negb (is_meta c)) s.

(** A text made of spaces only. *)
Definition blank (s : string) : bool := forallb_string (Ascii.eqb space) s.

(** Reading an escaped text back: a backslash stands for the character
    that follows it. *)
Fixpoint unescape (s : string) : string :=
  match s with
  | EmptyString => EmptyString
  | String c s' =>
      if Ascii.eqb c "\" then
        match s' with
        | String e s'' => String e (unescape s'')
        | EmptyString => EmptyString
        end
      else String c (unescape s')
  end.

(** The guard that opens [buildFindParameters]:
    [!params || !params.columns || !params.search ||
     (!params.search.value && params.search.value !== '')]. *)
Definition find_guard (params : value) : bool :=
  negb (truthy params)
  || match get params "columns" with
     | Return columns => negb (truthy columns)
     | _ => false
     end
  || match get params "search" with
     | Return search =>
         negb (truthy search)
         || match get search "value" with
            | Return v => negb (truthy v) && negb (is_str EmptyString v)
            | _ => false
            end
     | _ => false
     end.

(** The property names the projection compiler writes, in column order. *)
Definition select_keys {E : Engine} (cols : list value) : completion (list string) :=
  mapM (fun column => d <- get column "data" ;; ToPropertyKey d) cols.

(** A store whose every operation fails with the error [err]. *)
Definition failing_store (err : value) : Model unit := {|
  countDocuments := fun _ s => (Failed err, s);
  exec := fun _ s => (Failed err, s)
|}.

(** The store operation [c] can be rejected with [err]. *)
Definition failed_with {S : Type} (M : Model S) (c : call) (err : value) : Prop :=
  match c with
  | CountDocuments filter => exists s s', countDocuments M filter s = (Failed err, s')
  | FindExec q => exists s s', exec M q s = (Failed err, s')
  end.

(** A store that counts what it is asked: its state is the number of
    operations served so far, and the operation numbered [n] fails. *)
Definition flaky_store (n : nat) (err : value) : Model nat := {|
  countDocuments := fun _ s =>
    (if Nat.eqb s n then Failed err else Resolved (num s), Datatypes.S s);
  exec := fun _ s =>
    (if Nat.eqb s n then Failed err else Resolved (VArr []), Datatypes.S s)
|}.

(** * Properties *)

Unset Implicit Arguments.

Ltac case_bind H :=
  match type of H with
  | context [bind ?c _] =>
      let Hc := fresh "Hc" in
      destruct c eqn:Hc; cbn -[assign] in H; try discriminate H
  | context [if ?b then _ else _] =>
      let Hb := fresh "Hb" in
      destruct b eqn:Hb; cbn -[assign] in H; try discriminate H
  | context [match ?l with [] => _ | _ :: _ => _ end] =>
      destruct l; cbn -[assign] in H; try discriminate H
  end.

(** ** Own properties: reading after writing *)

Lemma lookup_set_prop_same (k : string) (v : value) (o : props) :
  lookup k (set_prop k v o) = Some v.
Proof.
  induction o as [|[k' v'] o IH]; simpl.
  - now rewrite String.eqb_refl.
  - destruct (String.eqb k k') eqn:Hk; simpl.
    + now rewrite String.eqb_refl.
    + now rewrite Hk.
Qed.

Lemma lookup_set_prop_other (k k' : string) (v : value) (o : props) :
  k <> k' -> lookup k (set_prop k' v o) = lookup k o.
Proof.
  intros Hne. induction o as [|[k0 v0] o IH]; simpl.
  - destruct (String.eqb k k') eqn:Hk; [apply String.eqb_eq in Hk; contradiction | reflexivity].
  - destruct (String.eqb k' k0) eqn:Hk0; simpl.
    + apply String.eqb_eq in Hk0; subst k0.
      destruct (String.eqb k k') eqn:Hk; [apply String.eqb_eq in Hk; contradiction | reflexivity].
    + destruct (String.eqb k k0); [reflexivity | exact IH].
Qed.

Lemma lookup_delete_prop_same (k : string) (o : props) :
  lookup k (delete_prop k o) = None.
Proof.
  induction o as [|[k' v'] o IH]; simpl; [reflexivity|].
  destruct (String.eqb k k') eqn:Hk; simpl; [exact IH | now rewrite Hk].
Qed.


(** ** What the filter compiler leaves alone *)

Lemma same_but_find_get (p p' : value) (k : string) :
  same_but_find p p' -> k <> "find" -> get p' k = get p k.
Proof.
  intros [->|(ps & o' & -> & ->)] Hk; [reflexivity|].
  simpl. now rewrite lookup_set_prop_other.
Qed.

Lemma same_but_find_truthy (p p' : value) :
  same_but_find p p' -> truthy p' = truthy p.
Proof. now intros [->|(ps & o' & -> & ->)]. Qed.

Lemma assign_same_but_find (p : value) (h : handle) (o' : value) :
  same_but_find p (snd (assign p h o')).
Proof.
  destruct h; simpl; [|now left].
  destruct p; try (now left). right. now exists props0, o'.
Qed.

Section Frame.
Context {E : Engine}.

Lemma buildFindParameters_body_frame (params : value) r params' :
  buildFindParameters_body params = Return (r, params') ->
  same_but_find params params'.
Proof.
  unfold buildFindParameters_body. intros H.
  repeat
    (first
       [ injection H as <- <-; now left
       | match type of H with
         | context [assign ?p ?h ?o] =>
             pose proof (assign_same_but_find p h o) as Hs;
             destruct (assign p h o); simpl in Hs;
             injection H as <- <-; exact Hs
         end
       | case_bind H ]).
Qed.

(** The filter compiler changes nothing but the object bound to
    [find]. *)
Lemma buildFindParameters_frame (params : value) c params' :
  buildFindParameters params = (c, params') ->
  same_but_find params params'.
Proof.
  unfold buildFindParameters.
  destruct (buildFindParameters_body params) as [[r p1]| |] eqn:Hb;
    intros H; injection H as <- <-; try (now left).
  eapply buildFindParameters_body_frame; eassumption.
Qed.

Lemma buildSortParameters_frame (p p' : value) :
  same_but_find p p' -> buildSortParameters p' = buildSortParameters p.
Proof.
  intros Hs. unfold buildSortParameters.
  rewrite (same_but_find_truthy _ _ Hs).
  rewrite (same_but_find_get _ _ "order" Hs) by discriminate.
  now rewrite (same_but_find_get _ _ "columns" Hs) by discriminate.
Qed.

Lemma buildSelectParameters_frame (p p' : value) :
  same_but_find p p' -> buildSelectParameters p' = buildSelectParameters p.
Proof.
  intros Hs. unfold buildSelectParameters.
  rewrite (same_but_find_truthy _ _ Hs).
  now rewrite (same_but_find_get _ _ "columns" Hs) by discriminate.
Qed.

(** The validator on numbers: only NaN is invalid. *)
Lemma isNaNorUndefined_numbers (a b c : number) :
  isNaNorUndefined [VNum a; VNum b; VNum c]
  = Return (is_nan a || is_nan b || is_nan c).
Proof.
  unfold isNaNorUndefined; simpl.
  destruct (is_nan a), (is_nan b), (is_nan c); reflexivity.
Qed.

Lemma isNaNorUndefined_number (n : number) :
  isNaNorUndefined [VNum n] = Return (is_nan n).
Proof. unfold isNaNorUndefined; simpl. now destruct (is_nan n). Qed.

End Frame.

(** ** The filter compiler on a non-empty search text *)

Lemma escape_text_empty (s : string) :
  String.eqb (escape_text s) EmptyString = String.eqb s EmptyString.
Proof. destruct s as [|c s]; simpl; [reflexivity|]. now destruct (is_meta c). Qed.

Lemma get_truthy_object (p : value) (k : string) (v : value) :
  get p k = Return v -> truthy v = true -> truthy p = true.
Proof.
  destruct p as [| |b|n|s|src fl|l|o]; simpl; intros H Hv;
    try discriminate H; try reflexivity; injection H as <-;
    try discriminate Hv.
  destruct (String.eqb k "length"); [|discriminate Hv].
  destruct s; [discriminate Hv | reflexivity].
Qed.

Lemma get_total (p : value) (k : string) :
  truthy p = true -> exists v, get p k = Return v.
Proof. destruct p; simpl; try discriminate; eauto. Qed.

Lemma deref_assign (params : value) (h : handle) (o' : value) :
  (h = Shared -> exists v, get params "find" = Return v /\ truthy v = true) ->
  deref (snd (assign params h o')) (fst (assign params h o')) = o'.
Proof.
  intros Hh. destruct h; simpl; [|reflexivity].
  destruct (Hh eq_refl) as (v & Hg & Hv).
  destruct params as [| |b|n|s|src fl|l|o]; simpl in *;
    try discriminate Hg; try (injection Hg as <-; discriminate Hv).
  now rewrite lookup_set_prop_same.
Qed.

Section FindSearching.
Context {E : Engine}.

Lemma write_empty (k : string) (v : value) :
  write (VObj []) k v = Return (or_condition v k).
Proof.
  unfold write, assign_prop, or_condition.
  destruct (String.eqb k "__proto__") eqn:Hk; [|reflexivity].
  apply String.eqb_eq in Hk. now subst k.
Qed.

Lemma assign_prop_other (k : string) (v : value) (o : props) :
  k <> "__proto__" -> assign_prop k v o = set_prop k v o.
Proof.
  intros Hk. unfold assign_prop.
  destruct (String.eqb_spec k "__proto__"); [contradiction | reflexivity].
Qed.

Lemma assign_prop_own (k : string) (v old : value) (o : props) :
  lookup k o = Some old -> assign_prop k v o = set_prop k v o.
Proof.
  intros Hk. unfold assign_prop. rewrite Hk. now destruct (String.eqb k "__proto__").
Qed.

Lemma mapM_or_conditions (regex : value) (fields : list value) (keys : list string) :
  mapM ToPropertyKey fields = Return keys ->
  mapM (fun field => key <- ToPropertyKey field ;; write (VObj []) key regex) fields
  = Return (map (or_condition regex) keys).
Proof.
  revert keys. induction fields as [|f fs IH]; cbn -[write]; intros keys H.
  - now injection H as <-.
  - destruct (ToPropertyKey f) as [k| |]; cbn -[write] in *; try discriminate.
    destruct (mapM ToPropertyKey fs) as [ks| |]; cbn -[write] in *;
      try discriminate.
    injection H as <-. rewrite write_empty. cbn -[write].
    now rewrite (IH ks eq_refl).
Qed.

Lemma deref_find_handle (params : value) :
  truthy params = true ->
  deref params (find_handle params) = base_filter params.
Proof.
  unfold find_handle, base_filter. intros Hp.
  destruct params as [| |b|n|s|src fl|l|o]; simpl in *;
    try discriminate; try reflexivity.
  destruct (lookup "find" o) as [v|] eqn:Hl; simpl; [|reflexivity].
  destruct (truthy v); simpl; [now rewrite Hl | reflexivity].
Qed.

(** The prefix common to every run on a non-empty search text. *)
Lemma buildFindParameters_body_searching (params : value) (text : string)
    (smart : value) :
  searching params text smart ->
  buildFindParameters_body params =
    (searchableFields <- getSearchableFields params ;;
     let searchRegex := search_regex smart (escape_text text) in
     let findParameters := find_handle params in
     match searchableFields with
     | [field] =>
         key <- ToPropertyKey field ;;
         o' <- write (deref params findParameters) key searchRegex ;;
         let (h, params') := assign params findParameters o' in
         Return (Some h, params')
     | _ =>
         searchOrArray <-
           mapM (fun field =>
                   key <- ToPropertyKey field ;;
                   write (VObj []) key searchRegex) searchableFields ;;
         prevOr <- get (deref params findParameters) "$or" ;;
         o' <- (if truthy prevOr then
                  write (delete (deref params findParameters) "$or") "$and"
                    (VArr [VObj [("$or", VArr searchOrArray)];
                           VObj [("$or", prevOr)]])
                else
                  write (deref params findParameters) "$or" (VArr searchOrArray)) ;;
         let (h, params') := assign params findParameters o' in
         Return (Some h, params')
     end).
Proof.
  intros [(c & Hc & Hct) (srch & Hs & Hst & Hv & Hsm) Ht].
  unfold buildFindParameters_body, find_handle.
  rewrite (get_truthy_object _ _ _ Hc Hct). simpl negb. cbv iota.
  rewrite Hc. simpl bind. rewrite Hct. simpl negb. cbv iota.
  rewrite Hs. simpl bind. rewrite Hst. simpl negb. cbv iota.
  rewrite Hv. cbn [bind truthy is_str escapeRegex].
  destruct (String.eqb text EmptyString) eqn:Hte.
  { apply String.eqb_eq in Hte. contradiction. }
  cbn [negb andb].
  destruct (@get_total params "find" (@get_truthy_object _ _ _ Hc Hct)) as (f & Hf).
  rewrite Hf. cbn [bind].
  rewrite escape_text_empty, Hte.
  rewrite Hsm. cbn [bind]. reflexivity.
Qed.

End FindSearching.

Section FindCases.
Context {E : Engine}.

Lemma find_handle_shared (params : value) :
  find_handle params = Shared ->
  exists v, get params "find" = Return v /\ truthy v = true.
Proof.
  unfold find_handle.
  destruct (get params "find") as [v| |]; try discriminate.
  destruct (truthy v) eqn:Hv; [eauto | discriminate].
Qed.

Lemma compiled_after_assign (params : value) (o' : value) :
  buildFindParameters_body params =
    (let (h, params') := assign params (find_handle params) o' in
     Return (Some h, params')) ->
  compiled_filter params = Some o'.
Proof.
  intros Hb. unfold compiled_filter, buildFindParameters. rewrite Hb.
  pose proof (@deref_assign params (find_handle params) o'
                (@find_handle_shared params)) as Hd.
  destruct (assign params (find_handle params) o') as [h p']. exact (f_equal Some Hd).
Qed.

(** Exactly one searchable field: the pattern is written on the base
    filter under that field's name. *)
Lemma compiled_filter_one_field (params : value) (text : string) (smart : value)
    (field : value) (key : string) (b : props) :
  searching params text smart ->
  getSearchableFields params = Return [field] ->
  ToPropertyKey field = Return key ->
  base_filter params = VObj b ->
  compiled_filter params =
    Some (VObj (assign_prop key (search_regex smart (escape_text text)) b)).
Proof.
  intros Hs Hf Hk Hb. apply compiled_after_assign.
  rewrite (buildFindParameters_body_searching _ _ _ Hs), Hf. cbn [bind].
  rewrite Hk. cbn [bind].
  assert (Hp : truthy params = true).
  { destruct Hs as [(c & Hc & Hct) _ _]. eapply get_truthy_object; eassumption. }
  rewrite (deref_find_handle _ Hp), Hb. reflexivity.
Qed.

(** Any other number of searchable fields: a disjunction with one
    branch per field is attached, beside a truthy [$or] of the base
    filter if there is one. *)
Lemma compiled_filter_disjunction (params : value) (text : string) (smart : value)
    (fields : list value) (keys : list string) (b : props) :
  searching params text smart ->
  getSearchableFields params = Return fields ->
  List.length fields <> 1 ->
  mapM ToPropertyKey fields = Return keys ->
  base_filter params = VObj b ->
  let searchRegex := search_regex smart (escape_text text) in
  let searchOrArray := map (or_condition searchRegex) keys in
  let prevOr := match lookup "$or" b with Some v => v | None => VUndefined end in
  compiled_filter params =
    Some (VObj (if truthy prevOr
                then set_prop "$and"
                       (VArr [VObj [("$or", VArr searchOrArray)];
                              VObj [("$or", prevOr)]])
                       (delete_prop "$or" b)
                else set_prop "$or" (VArr searchOrArray) b)).
Proof.
  intros Hs Hf Hn Hk Hb. apply compiled_after_assign.
  rewrite (buildFindParameters_body_searching _ _ _ Hs), Hf. cbn [bind].
  assert (Hp : truthy params = true).
  { destruct Hs as [(c & Hc & Hct) _ _]. eapply get_truthy_object; eassumption. }
  rewrite (deref_find_handle _ Hp), Hb.
  rewrite (mapM_or_conditions _ _ _ Hk).
  destruct fields as [|f [|g fs]]; [| now contradiction Hn |];
    cbn [bind get];
    destruct (truthy match lookup "$or" b with Some v => v | None => VUndefined end);
    reflexivity.
Qed.

End FindCases.

(** ** The orchestrator and an absent sort *)

Section AbsentSort.
Context {E : Engine} {S : Type}.
Variable M : Model S.

(** C1 (as the code has it).  When [draw], [start] and [length] convert
    to numbers, the sort compiler yields its absent result [null] and the
    two other compilers return, the orchestrator rejects before any
    store access: with the pagination error when a coerced numeric is
    NaN, otherwise with the error
    [Invalid findParameters or sortParameters or selectParameters]. *)
Theorem absent_sort_is_rejected (params : value) (s : S)
    (draw start length : number) (f : option handle) (params1 sel : value) :
  coerce_pagination params = Return (draw, start, length) ->
  buildFindParameters params = (Return f, params1) ->
  buildSortParameters params = Return VNull ->
  buildSelectParameters params = Return sel ->
  run M params s =
    stop (Rejected (ErrorObject
                      (if is_nan draw || is_nan start || is_nan length
                       then pagination_message else query_message)))
         params1 s.
Proof.
  intros Hp Hf Hs Hsel. unfold run.
  rewrite Hp, Hf.
  pose proof (buildFindParameters_frame _ _ _ Hf) as Hfr.
  rewrite (buildSortParameters_frame _ _ Hfr), Hs.
  rewrite (buildSelectParameters_frame _ _ Hfr), Hsel.
  rewrite isNaNorUndefined_numbers.
  destruct (is_nan draw || is_nan start || is_nan length); [reflexivity|].
  destruct f as [h|]; [|reflexivity].
  simpl (truthy VNull). simpl (negb false).
  now rewrite orb_true_r.
Qed.

End AbsentSort.

(** C1 (as the specification words it) fails: on [unsorted_request] the
    sort compiler answers [null], the filter and projection compilers
    succeed, and the request is rejected with the malformed-query error. *)
Lemma absent_sort_rejected_example :
  buildSortParameters unsorted_request = Return VNull /\
  fst (buildFindParameters unsorted_request) = Return (Some (Fresh (VObj []))) /\
  buildSelectParameters unsorted_request = Return (VObj [("name", num 1)]) /\
  run empty_store unsorted_request tt =
    stop (Rejected (ErrorObject query_message)) unsorted_request tt.
Proof. repeat split; vm_compute; reflexivity. Qed.

Lemma absent_sort_is_rejected_witness :
  run empty_store unsorted_request tt =
    stop (Rejected (ErrorObject query_message)) unsorted_request tt.
Proof.
  apply (@absent_sort_is_rejected mini_engine unit empty_store unsorted_request tt
           (number_of_nat 1) (number_of_nat 0) (number_of_nat 10)
           (Some (Fresh (VObj []))) unsorted_request (VObj [("name", num 1)]));
    reflexivity.
Defined.

(** ** No searchable column *)

Section NoSearchableColumn.
Context {E : Engine}.

(** C2 (as the code has it).  With a non-empty search text and no
    searchable column the compiler attaches an empty disjunction: the
    base filter receives [$or: []], or, when it carries a truthy [$or],
    loses it and receives [$and: [{$or: []}, {$or: previous}]].  The
    compiled filter is never the base filter. *)
Theorem zero_fields_empty_disjunction (params : value) (text : string)
    (smart : value) (b : props) :
  searching params text smart ->
  getSearchableFields params = Return [] ->
  base_filter params = VObj b ->
  let prevOr := match lookup "$or" b with Some v => v | None => VUndefined end in
  compiled_filter params =
    Some (VObj (if truthy prevOr
                then set_prop "$and"
                       (VArr [VObj [("$or", VArr [])]; VObj [("$or", prevOr)]])
                       (delete_prop "$or" b)
                else set_prop "$or" (VArr []) b))
  /\ compiled_filter params <> Some (base_filter params).
Proof.
  intros Hs Hf Hb prevOr.
  pose proof (@compiled_filter_disjunction E params text smart [] [] b Hs Hf
                ltac:(discriminate) eq_refl Hb) as Hc.
  cbn zeta in Hc. cbn [map] in Hc. fold prevOr in Hc.
  split; [exact Hc|].
  rewrite Hc, Hb. intros Heq. injection Heq as Heq.
  apply (f_equal (lookup "$or")) in Heq.
  destruct (truthy prevOr) eqn:Hp.
  - rewrite lookup_set_prop_other in Heq by discriminate.
    rewrite lookup_delete_prop_same in Heq.
    subst prevOr. rewrite <- Heq in Hp. discriminate.
  - rewrite lookup_set_prop_same in Heq.
    subst prevOr. rewrite <- Heq in Hp. discriminate.
Qed.

End NoSearchableColumn.

(** C2 (as the specification words it) fails: [no_searchable_request] has
    a search text, no searchable column and no [find], and its compiled
    filter is [{$or: []}], not the empty filter. *)
Lemma zero_fields_not_base_example :
  getSearchableFields no_searchable_request = Return [] /\
  base_filter no_searchable_request = VObj [] /\
  compiled_filter no_searchable_request = Some (VObj [("$or", VArr [])]) /\
  compiled_filter no_searchable_request <> Some (VObj []).
Proof. repeat split; try (vm_compute; reflexivity). vm_compute. discriminate. Qed.

Lemma zero_fields_empty_disjunction_witness :
  compiled_filter no_searchable_request = Some (VObj [("$or", VArr [])]).
Proof.
  apply (@zero_fields_empty_disjunction mini_engine no_searchable_request
           "jo" (VBool false) []).
  - constructor.
    + exists (VArr [column "name" (VBool false) (VBool true)]). now split.
    + exists (search "jo" false). now repeat split.
    + discriminate.
  - reflexivity.
  - reflexivity.
Defined.

(** ** Several searchable columns *)

Section SeveralColumns.
Context {E : Engine}.


(** C10.  With a non-empty search text and exactly one searchable
    column whose field name is already a key of the caller's [find], the
    compiled filter is [find] with the search pattern in the place of the
    constraint it had on that field; no other key changes and none is
    added, so the former constraint is gone. *)
Theorem single_field_overwrites (params : value) (text : string) (smart : value)
    (field : value) (key : string) (b : props) (old : value) :
  searching params text smart ->
  getSearchableFields params = Return [field] ->
  ToPropertyKey field = Return key ->
  get params "find" = Return (VObj b) ->
  lookup key b = Some old ->
  let pattern := search_regex smart (escape_text text) in
  exists o,
    compiled_filter params = Some (VObj o) /\
    lookup key o = Some pattern /\
    map fst o = map fst b /\
    (forall k, k <> key -> lookup k o = lookup k b).
Proof.
  intros Hs Hf Hk Hfind Hold pattern.
  assert (Hb : base_filter params = VObj b).
  { unfold base_filter. now rewrite Hfind. }
  exists (set_prop key pattern b). split.
  { rewrite <- (assign_prop_own key pattern old b Hold).
    exact (compiled_filter_one_field params text smart field key b Hs Hf Hk Hb). }
  split; [apply lookup_set_prop_same|]. split.
  - clear -Hold. induction b as [|[k' v'] b IH]; simpl in *; [discriminate|].
    destruct (String.eqb key k') eqn:Hkk; simpl.
    + apply String.eqb_eq in Hkk. now subst.
    + now rewrite IH.
  - intros k Hne. now apply lookup_set_prop_other.
Qed.

End SeveralColumns.

(** C4 (the specification is right, the code is not).  On
    [proto_column_request] both columns are searchable, yet the branch
    built for the first one is an object without any property: the write
    [orCondition[field] = searchRegex] under the name [__proto__] creates
    none.  The disjunction has two branches and only one of them is a
    [{field: pattern}]. *)
Theorem proto_column_branch_has_no_field :
  getSearchableFields proto_column_request =
    Return [VStr "__proto__"; VStr "name"] /\
  compiled_filter proto_column_request =
    Some (VObj [("$or", VArr [VObj []; VObj [("name", VRegExp "jo" "i")]])]).
Proof. split; vm_compute; reflexivity. Qed.



Lemma searching_clash_request : searching clash_request "jo" (VBool false).
Proof.
  constructor.
  - eexists. now split.
  - exists (search "jo" false). now repeat split.
  - discriminate.
Qed.

Lemma single_field_overwrites_witness :
  exists o,
    compiled_filter clash_request = Some (VObj o) /\
    lookup "name" o = Some (VRegExp "jo" "i") /\
    map fst o = ["name"; "age"].
Proof.
  destruct (@single_field_overwrites mini_engine clash_request "jo" (VBool false)
              (VStr "name") "name" [("name", VStr "Bob"); ("age", num 3)]
              (VStr "Bob") searching_clash_request eq_refl eq_refl eq_refl eq_refl)
    as (o & Hc & Hk & Hkeys & _).
  exists o. repeat split; assumption.
Defined.

(** ** The base filter is shared with the compiled filter *)

(** C3.  The filter compiler writes into the caller's [find]: on
    [active_request] it returns that very object, which now holds the
    search pattern; on [or_request] the caller's [$or] has been deleted
    from it and an [$and] added. *)
Theorem find_is_modified_in_place :
  buildFindParameters active_request =
    (Return (Some Shared),
     VObj [("draw", num 1); ("start", num 0); ("length", num 10);
           ("columns", VArr [column "name" (VStr "true") (VStr "true")]);
           ("order", VArr [VObj [("column", VStr "0"); ("dir", VStr "asc")]]);
           ("search", search "jo" false);
           ("find", VObj [("active", VBool true); ("name", VRegExp "jo" "i")])])
  /\ snd (buildFindParameters active_request) <> active_request
  /\ fst (buildFindParameters or_request) = Return (Some Shared)
  /\ (exists o, get (snd (buildFindParameters or_request)) "find" = Return (VObj o)
                /\ lookup "$or" o = None
                /\ map fst o = ["active"; "$and"]).
Proof.
  split; [vm_compute; reflexivity|].
  split; [vm_compute; discriminate|].
  split; [vm_compute; reflexivity|].
  eexists. split; [vm_compute; reflexivity|]. split; reflexivity.
Qed.

Section Envelope.
Context {E : Engine} {S : Type}.
Variable M : Model S.

Lemma write_truthy (target : value) (k : string) (v o' : value) :
  truthy target = true -> write target k v = Return o' -> truthy o' = true.
Proof.
  destruct target; simpl; try discriminate; intros Ht;
    try (destruct (String.eqb k "__proto__"); try discriminate);
    now intros [= <-].
Qed.

Lemma delete_truthy (target : value) (k : string) :
  truthy (delete target k) = truthy target.
Proof. now destruct target. Qed.

Lemma deref_shared_truthy (params v : value) :
  get params "find" = Return v -> truthy v = true ->
  truthy (deref params Shared) = true.
Proof.
  destruct params as [| |b|n|s|src fl|l|o]; simpl; intros H Hv;
    try discriminate H; try (injection H as <-; discriminate Hv).
  now injection H as <-.
Qed.

Lemma handle_target_truthy (params f : value) :
  get params "find" = Return f ->
  truthy (deref params (if truthy f then Shared else Fresh (VObj []))) = true.
Proof.
  intros Hf. destruct (truthy f) eqn:Ht; [|reflexivity].
  eapply deref_shared_truthy; eassumption.
Qed.

(** A filter the compiler returns is never falsy. *)
Lemma compiled_handle_truthy (params : value) (h : handle) (params1 : value) :
  buildFindParameters params = (Return (Some h), params1) ->
  truthy (deref params1 h) = true.
Proof.
  unfold buildFindParameters.
  destruct (buildFindParameters_body params) as [[r p1]| |] eqn:Hb;
    intros H; try discriminate. injection H as -> ->.
  unfold buildFindParameters_body in Hb.
  repeat
    (first
       [ discriminate Hb
       | match type of Hb with
         | context [assign ?p ?hh ?o] =>
             let Hw := fresh "Hw" in
             assert (Hw : truthy o = true)
               by (repeat match goal with
                          | Hx : (if ?b then _ else _) = Return _ |- _ => destruct b
                          | Hx : write ?t _ _ = Return _ |- _ =>
                              apply (write_truthy t) in Hx;
                              [ exact Hx
                              | rewrite ?delete_truthy;
                                first [ reflexivity
                                      | eapply deref_shared_truthy; eassumption
                                      | eapply handle_target_truthy; eassumption ] ]
                          end);
             pose proof (@deref_assign p hh o) as Hd;
             destruct (assign p hh o); simpl in Hd;
             injection Hb as <- <-; rewrite Hd; [exact Hw|];
             intros Hsh; try discriminate Hsh; eauto
         end
       | case_bind Hb ]).
  all: injection Hb as <- <-; try reflexivity.
  all: eapply deref_shared_truthy; eassumption.
Qed.

(** The envelope of a request that goes through.  The first count is
    taken on [params.find || {}] as it stands after the filter compiler
    ran, the second on the compiled filter. *)
Lemma run_fulfills (params : value) (s s1 s2 s3 : S)
    (draw start length : number) (h : handle) (params1 : value)
    (sort sel total filtered results : value) :
  coerce_pagination params = Return (draw, start, length) ->
  is_nan draw || is_nan start || is_nan length = false ->
  buildFindParameters params = (Return (Some h), params1) ->
  buildSortParameters params = Return sort -> truthy sort = true ->
  buildSelectParameters params = Return sel -> truthy sel = true ->
  countDocuments M (base_filter params1) s = (Resolved total, s1) ->
  countDocuments M (deref params1 h) s1 = (Resolved filtered, s2) ->
  (forall q, q_filter q = deref params1 h -> q_select q = sel ->
             q_limit q = length -> q_skip q = start -> q_sort q = sort ->
             exec M q s2 = (Resolved results, s3)) ->
  res_outcome (run M params s) =
    Fulfilled (VObj [("draw", VNum draw); ("recordsTotal", total);
                     ("recordsFiltered", filtered); ("data", results)]).
Proof.
  intros Hp Hn Hf Hs Hst Hsel Hselt Hc1 Hc2 Hex. unfold run.
  rewrite Hp, Hf.
  pose proof (buildFindParameters_frame _ _ _ Hf) as Hfr.
  rewrite (buildSortParameters_frame _ _ Hfr), Hs.
  rewrite (buildSelectParameters_frame _ _ Hfr), Hsel.
  rewrite isNaNorUndefined_numbers, Hn.
  unfold handle_falsy. rewrite (compiled_handle_truthy _ _ _ Hf), Hst, Hselt.
  simpl. unfold store_chain. rewrite Hc1, Hc2.
  erewrite Hex; reflexivity.
Qed.

End Envelope.

(** C8.  On [active_request], against the three [people], the envelope
    reports [recordsTotal = 1], the count of the compiled filter, although
    two documents match [find] alone: by the time the first count is
    issued [params.find] already holds the search pattern. *)
Theorem records_total_counts_the_compiled_filter :
  res_outcome (run (memory_store people) active_request tt) =
    Fulfilled (VObj [("draw", num 1); ("recordsTotal", num 1);
                     ("recordsFiltered", num 1);
                     ("data", VArr [VObj [("name", VStr "John")]])])
  /\ countDocuments (memory_store people) (base_filter active_request) tt =
       (Resolved (num 2), tt)
  /\ hd_error (res_calls (run (memory_store people) active_request tt)) =
       Some (CountDocuments
               (VObj [("active", VBool true); ("name", VRegExp "jo" "i")])).
Proof. repeat split; vm_compute; reflexivity. Qed.

(** ** Malformed pagination parameters *)

Section Pagination.
Context {E : Engine} {S : Type}.
Variable M : Model S.

(** C7 (as the code has it).  When [draw], [start] and [length] convert
    to numbers, one of which is NaN, and the three compilers return, the
    orchestrator rejects with an [Error] that carries the fixed message
    [pagination_message] and no cause; no store operation has been
    issued and the store is as it was.  The message is the same
    whichever parameter is at fault. *)
Theorem invalid_pagination_is_rejected (params : value) (s : S)
    (draw start length : number) (f : option handle)
    (params1 sort sel : value) :
  coerce_pagination params = Return (draw, start, length) ->
  is_nan draw || is_nan start || is_nan length = true ->
  buildFindParameters params = (Return f, params1) ->
  buildSortParameters params = Return sort ->
  buildSelectParameters params = Return sel ->
  run M params s =
    {| res_outcome := Rejected (ErrorObject pagination_message);
       res_calls := [];
       res_store := s;
       res_params := params1 |}.
Proof.
  intros Hp Hn Hf Hs Hsel. unfold run.
  rewrite Hp, Hf.
  pose proof (buildFindParameters_frame _ _ _ Hf) as Hfr.
  rewrite (buildSortParameters_frame _ _ Hfr), Hs.
  rewrite (buildSelectParameters_frame _ _ Hfr), Hsel.
  now rewrite isNaNorUndefined_numbers, Hn.
Qed.

(** The coerced parameters are numbers: only NaN can make them invalid. *)
Lemma coerced_invalid_iff_nan (a b c : number) :
  isNaNorUndefined [VNum a; VNum b; VNum c] = Return true <->
  is_nan a = true \/ is_nan b = true \/ is_nan c = true.
Proof.
  rewrite isNaNorUndefined_numbers.
  destruct (is_nan a), (is_nan b), (is_nan c); simpl; split;
    intros H; try reflexivity; try discriminate; auto;
    destruct H as [H|[H|H]]; discriminate.
Qed.

End Pagination.

(** C7 (as the specification words it) fails twice.  A request without
    [draw] and a request without [length] are rejected with one and the
    same error, so the error does not name the parameter at fault; and a
    request whose [start] is [abc] but whose column flag is not JSON is not
    rejected at all: the call throws a [SyntaxError]. *)
Lemma pagination_error_names_nothing :
  res_outcome (run empty_store missing_draw_request tt) =
    Rejected (ErrorObject pagination_message) /\
  res_outcome (run empty_store missing_length_request tt) =
    Rejected (ErrorObject pagination_message) /\
  coerce_pagination missing_draw_request = Return (NaN, num_zero, number_of_nat 10) /\
  coerce_pagination missing_length_request = Return (number_of_nat 1, num_zero, NaN) /\
  coerce_pagination unparsable_request = Return (number_of_nat 1, NaN, number_of_nat 10) /\
  res_outcome (run empty_store unparsable_request tt) = Threw SyntaxError.
Proof. repeat split; vm_compute; reflexivity. Qed.

Lemma invalid_pagination_is_rejected_witness :
  run empty_store bad_start_request tt =
    {| res_outcome := Rejected (ErrorObject pagination_message);
       res_calls := [];
       res_store := tt;
       res_params := bad_start_request |}.
Proof.
  apply (@invalid_pagination_is_rejected mini_engine unit empty_store
           bad_start_request tt (number_of_nat 1) NaN (number_of_nat 10)
           (Some (Fresh (VObj [("name", VRegExp "jo" "i")]))) bad_start_request
           (VObj [("name", VNum num_one)]) (VObj [("name", VNum num_one)]));
    reflexivity.
Defined.

(** ** Sort Compiler *)

Lemma leb_of_nat (len : nat) (z : Z) :
  (0 <= z)%Z -> (Z.of_nat len <=? z)%Z = Nat.leb len (Z.to_nat z).
Proof.
  intros Hz.
  destruct (Z.leb_spec (Z.of_nat len) z), (Nat.leb_spec len (Z.to_nat z));
    try reflexivity; lia.
Qed.

Lemma array_index_ge (n : number) (i len : nat) :
  array_index n = Some i ->
  is_nan n = false /\ number_ge_nat n len = Nat.leb len i.
Proof.
  destruct n as [sg|sg| |sg m e]; try discriminate.
  - intros [= <-]. split; [reflexivity|]. now destruct len.
  - destruct sg; [discriminate|]. split; [reflexivity|].
    unfold array_index in H. unfold number_ge_nat.
    destruct e as [|p|k]; cbv beta iota in H |- *.
    + injection H as <-. apply leb_of_nat. rewrite Z.pow_0_r. lia.
    + assert (Hz : (0 <= Zpos m * 2 ^ Zpos p)%Z).
      { apply Z.mul_nonneg_nonneg; [lia|]. apply Z.pow_nonneg. lia. }
      revert H Hz. generalize (Zpos m * 2 ^ Zpos p)%Z. intros z H Hz.
      injection H as <-. now apply leb_of_nat.
    + assert (Hpow : (0 < 2 ^ Zpos k)%Z) by (apply Z.pow_pos_nonneg; lia).
      destruct (Z.eqb_spec (Zpos m mod 2 ^ Zpos k) 0) as [Hm|Hm]; [|discriminate].
      injection H as <-.
      pose proof (Z.div_mod (Zpos m) (2 ^ Zpos k) ltac:(lia)) as Hdm.
      rewrite Hm, Z.add_0_r in Hdm.
      assert (Hq : (0 <= Zpos m / 2 ^ Zpos k)%Z) by (apply Z.div_pos; lia).
      rewrite <- (leb_of_nat _ _ Hq).
      set (q := (Zpos m / 2 ^ Zpos k)%Z) in *. set (w := (2 ^ Zpos k)%Z) in *.
      destruct (Z.leb_spec (Z.of_nat len * w) (Zpos m)),
               (Z.leb_spec (Z.of_nat len) q);
        try reflexivity; nia.
Qed.

Section SortCompiler.
Context {E : Engine}.

(** C5 (as the code has it).  The sort compiler answers [null], its
    absent result: for a falsy descriptor; when [order] is not a
    non-empty array; when [Number(order[0].column)] is NaN; when
    [columns] is not an array; when that number is at least the number
    of columns; when the column it designates has [orderable] equal to
    the string [false]; when that column's [data] is falsy.  Otherwise,
    for a number that is the index of a column whose [data] names a
    property other than [__proto__], it answers the object with the
    single key [data], mapped to 1 when [dir] is the string [asc] and to
    -1 for any other [dir].  The cases on [order[0]] are those in which
    [order[0].column] and [order[0].dir] can be read and the column
    converted to a number, the cases on a column those in which its
    [orderable] and [data] can be read. *)
Theorem sort_compiler_cases (params : value) :
  (truthy params = false -> buildSortParameters params = Return VNull) /\
  (forall o,
      get params "order" = Return o ->
      (forall x xs, o <> VArr (x :: xs)) ->
      buildSortParameters params = Return VNull) /\
  (forall order0 rest column n dir,
      get params "order" = Return (VArr (order0 :: rest)) ->
      get order0 "column" = Return column ->
      ToNumber column = Return n ->
      get order0 "dir" = Return dir ->
      (is_nan n = true -> buildSortParameters params = Return VNull) /\
      (forall cv,
          get params "columns" = Return cv -> isArray cv = false ->
          buildSortParameters params = Return VNull) /\
      (forall cols,
          get params "columns" = Return (VArr cols) ->
          (number_ge_nat n (List.length cols) = true ->
           buildSortParameters params = Return VNull) /\
          (forall i col orderable data,
              array_index n = Some i -> nth_error cols i = Some col ->
              get col "orderable" = Return orderable ->
              get col "data" = Return data ->
              (is_str "false" orderable = true ->
               buildSortParameters params = Return VNull) /\
              (truthy data = false ->
               buildSortParameters params = Return VNull) /\
              (forall key,
                  is_str "false" orderable = false -> truthy data = true ->
                  ToPropertyKey data = Return key -> key <> "__proto__" ->
                  buildSortParameters params =
                    Return (VObj [(key, VNum (if is_str "asc" dir
                                              then num_one else num_minus_one))]))))).
Proof.
  unfold buildSortParameters. split; [|split].
  - now intros ->.
  - intros o Ho Hno.
    destruct (truthy params); [|reflexivity]. simpl. rewrite Ho. simpl.
    destruct o as [| |b|n|s|src fl|[|x xs]|ob]; try reflexivity.
    now destruct (Hno x xs).
  - intros order0 rest column n dir Ho Hc Hn Hd.
    assert (Hp : truthy params = true).
    { destruct params as [| |b|k|s|src fl|l|ob]; simpl in *;
        try discriminate Ho; try reflexivity; injection Ho as Ho;
        discriminate Ho. }
    rewrite Hp, Ho. cbn [negb bind]. rewrite Hc. cbn [bind]. rewrite Hn.
    cbn [bind]. rewrite Hd. cbn [bind]. rewrite isNaNorUndefined_number.
    cbn [bind]. split; [now intros ->|].
    destruct (is_nan n) eqn:Hnan.
    { split; [reflexivity|]. intros cols _. split; [reflexivity|].
      intros i col orderable data Hi.
      destruct (@array_index_ge n i 0 Hi) as [Hi0 _].
      congruence. }
    split.
    { intros cv Hcv Harr. rewrite Hcv. cbn [bind].
      destruct cv; try reflexivity. discriminate. }
    intros cols Hcols. rewrite Hcols. cbn [bind]. split; [now intros ->|].
    intros i col orderable data Hi Hnth Hord Hdata.
    destruct (@array_index_ge n i (List.length cols) Hi) as [_ Hge].
    rewrite Hge.
    assert (Hlt : i < List.length cols) by (apply nth_error_Some; congruence).
    destruct (Nat.leb_spec (List.length cols) i) as [Hle|_]; [lia|].
    assert (Hcol : get_index cols n = col).
    { unfold get_index. rewrite Hi. now apply nth_error_nth. }
    rewrite Hcol, Hord. cbn [bind]. split; [now intros ->|].
    destruct (is_str "false" orderable) eqn:Hf.
    { split; [reflexivity|]. intros key Hx. discriminate Hx. }
    rewrite Hdata. cbn [bind]. split; [now intros ->|].
    intros key _ Ht Hk Hproto. rewrite Ht, Hk. cbn [negb bind].
    unfold write. now rewrite (assign_prop_other _ _ _ Hproto).
Qed.

End SortCompiler.

(** C5 (as the specification words it) fails.  The empty string and
    [true] are no integers, yet [Number] makes them 0 and 1 and the
    request is sorted by the first, respectively the second, column; and
    a column whose [data] is the empty string has a [data] field, is
    orderable and in bounds, yet the result is absent. *)
Lemma sort_compiler_coerces_and_tests_truthiness :
  buildSortParameters empty_column_request = Return (VObj [("name", VNum num_one)]) /\
  buildSortParameters true_column_request = Return (VObj [("email", VNum num_one)]) /\
  buildSortParameters empty_data_request = Return VNull.
Proof. repeat split; vm_compute; reflexivity. Qed.

(** Indices the bound check [sortColumn >= columns.length] lets through
    although they designate no column: the call throws. *)
Lemma sort_compiler_throws_off_the_columns :
  buildSortParameters negative_index_request = Throw TypeError /\
  buildSortParameters fractional_index_request = Throw TypeError.
Proof. split; vm_compute; reflexivity. Qed.

Lemma sort_compiler_cases_witness :
  buildSortParameters active_request = Return (VObj [("name", VNum num_one)]).
Proof.
  destruct (@sort_compiler_cases mini_engine active_request) as (_ & _ & H).
  destruct (H (VObj [("column", VStr "0"); ("dir", VStr "asc")]) []
              (VStr "0") num_zero (VStr "asc") eq_refl eq_refl eq_refl eq_refl)
    as (_ & _ & Hcols).
  destruct (Hcols [column "name" (VStr "true") (VStr "true")] eq_refl) as (_ & Hcol).
  destruct (Hcol 0 (column "name" (VStr "true") (VStr "true")) (VStr "true")
              (VStr "name") eq_refl eq_refl eq_refl eq_refl) as (_ & _ & Hkey).
  exact (Hkey "name" eq_refl eq_refl eq_refl ltac:(discriminate)).
Defined.

(** ** Searchable-Field Extractor *)

Section ExtractorProperties.
Context {E : Engine}.






End ExtractorProperties.



(** The exception of the extractor leaves the orchestrator call as well:
    the compilers run before the promise is built. *)
Lemma run_throws_with_extractor {E : Engine} {S : Type} (M : Model S)
    (params : value) (s : S) (text : string) (smart : value) (e : exn)
    (p : number * number * number) :
  searching params text smart ->
  getSearchableFields params = Throw e ->
  coerce_pagination params = Return p ->
  run M params s = stop (Threw e) params s.
Proof.
  intros Hs He Hp. unfold run. rewrite Hp. destruct p as [[draw start] length].
  unfold buildFindParameters.
  now rewrite (buildFindParameters_body_searching _ _ _ Hs), He.
Qed.

(** ** Smart search: reading the pattern *)

Lemma is_meta_false_neq (c x : ascii) :
  is_meta c = false -> is_meta x = true -> Ascii.eqb c x = false.
Proof.
  intros Hc Hx. destruct (Ascii.eqb_spec c x) as [->|]; [congruence | reflexivity].
Qed.

Lemma parse_go_plain (stack : list (list regex)) (cur : list regex)
    (c : ascii) (s : string) :
  is_meta c = false ->
  parse_go stack cur (String c s) = parse_go stack (Chr c :: cur) s.
Proof.
  intros Hc. cbn [parse_go].
  rewrite !(is_meta_false_neq c _ Hc) by reflexivity.
  cbn [orb]. now rewrite Hc.
Qed.

Lemma parse_go_escape (stack : list (list regex)) (cur : list regex)
    (c : ascii) (s : string) :
  is_meta c = true ->
  parse_go stack cur (String "\" (String c s)) = parse_go stack (Chr c :: cur) s.
Proof. intros Hc. cbn [parse_go]. cbn [Ascii.eqb Bool.eqb]. now rewrite Hc. Qed.

(** An escaped text reads as the sequence of its characters. *)
Lemma parse_go_escaped (w : string) :
  forall stack cur rest,
    parse_go stack cur (escape_text w ++ rest) =
    parse_go stack (rev (chars_of w) ++ cur) rest.
Proof.
  induction w as [|c w IH]; intros stack cur rest; [reflexivity|].
  cbn [escape_text chars_of rev].
  destruct (is_meta c) eqn:Hc.
  - change ((String "\" (String c (escape_text w)) ++ rest)%string)
      with (String "\" (String c (escape_text w ++ rest))).
    rewrite (parse_go_escape _ _ _ _ Hc), IH. now rewrite <- app_assoc.
  - change ((String c (escape_text w) ++ rest)%string)
      with (String c (escape_text w ++ rest)).
    rewrite (parse_go_plain _ _ _ _ Hc), IH. now rewrite <- app_assoc.
Qed.

Lemma string_app_assoc (a b c : string) : ((a ++ b) ++ c = a ++ (b ++ c))%string.
Proof. induction a as [|x a IH]; simpl; [reflexivity | now rewrite IH]. Qed.

Lemma parse_go_lookaheads (ws : list string) :
  ws <> [] ->
  forall cur,
    parse_go [] cur
      ("(?=.*?" ++ String.concat ")(?=.*?" (map escape_text ws) ++ ").*$")
    = Some (seq_of (rev cur ++ map lookahead_of ws ++ [Star true Dot; Eol])).
Proof.
  induction ws as [|w ws IH]; [contradiction|]. intros _ cur.
  destruct ws as [|w2 ws].
  - cbn [map String.concat].
    change (parse_go [] cur ("(?=.*?" ++ escape_text w ++ ").*$"))
      with (parse_go [cur] [Star false Dot] (escape_text w ++ ").*$")).
    rewrite parse_go_escaped. cbn [parse_go Ascii.eqb Bool.eqb].
    cbn. rewrite rev_app_distr, rev_involutive. cbn [rev app].
    unfold lookahead_of, seq_of. now rewrite <- !app_assoc.
  - specialize (IH ltac:(discriminate)).
    change (String.concat ")(?=.*?" (map escape_text (w :: w2 :: ws)))
      with (escape_text w ++ ")(?=.*?" ++
            String.concat ")(?=.*?" (map escape_text (w2 :: ws)))%string.
    rewrite !string_app_assoc.
    change (parse_go [] cur ("(?=.*?" ++ escape_text w ++ ")(?=.*?" ++
              String.concat ")(?=.*?" (map escape_text (w2 :: ws)) ++ ").*$"))
      with (parse_go [cur] [Star false Dot]
              (escape_text w ++ ")(?=.*?" ++
               String.concat ")(?=.*?" (map escape_text (w2 :: ws)) ++ ").*$")).
    rewrite parse_go_escaped.
    change (parse_go [cur] (rev (chars_of w) ++ [Star false Dot])
              (")(?=.*?" ++
               String.concat ")(?=.*?" (map escape_text (w2 :: ws)) ++ ").*$"))
      with (parse_go []
              (Lookahead (seq_of (rev (rev (chars_of w) ++ [Star false Dot]))) :: cur)
              ("(?=.*?" ++
               String.concat ")(?=.*?" (map escape_text (w2 :: ws)) ++ ").*$")).
    rewrite IH. f_equal. f_equal.
    rewrite rev_app_distr, rev_involutive. cbn [rev app map].
    unfold lookahead_of at 2. now rewrite <- app_assoc.
Qed.

(** The smart pattern of a non-empty list of escaped words reads as
    [smart_regex]. *)
Lemma parse_smart_source (ws : list string) :
  ws <> [] ->
  parse (smart_source (map escape_text ws)) = Some (smart_regex ws).
Proof.
  intros Hne. unfold parse, smart_source.
  change (parse_go [] [] ("^(?=.*?" ++
            String.concat ")(?=.*?" (map escape_text ws) ++ ").*$"))
    with (parse_go [] [Bol] ("(?=.*?" ++
            String.concat ")(?=.*?" (map escape_text ws) ++ ").*$")).
  now rewrite (parse_go_lookaheads ws Hne).
Qed.

(** A pattern that is an escaped text reads as that text. *)
Lemma parse_escaped_text (w : string) :
  parse (escape_text w) = Some (seq_of (chars_of w)).
Proof.
  unfold parse.
  assert (H : escape_text w = (escape_text w ++ EmptyString)%string).
  { generalize (escape_text w). induction s; simpl; congruence. }
  rewrite H, parse_go_escaped. cbn [parse_go]. now rewrite app_nil_r, rev_involutive.
Qed.

(** ** Smart search: what the pattern matches *)

Lemma matchk_chars (ci : bool) (w : string) :
  forall at0 s,
    matchk ci (seq_of (chars_of w)) (fun _ _ => true) at0 s = prefix_matches ci w s.
Proof.
  induction w as [|c w IH]; intros at0 s; [reflexivity|].
  cbn [chars_of seq_of fold_right matchk prefix_matches].
  destruct s as [|a s]; [reflexivity|].
  f_equal. apply IH.
Qed.

Lemma star_loop_dot (ci : bool) (k : bool -> string -> bool) (n : nat) :
  forall at0 s,
    String.length s <= n ->
    star_loop (matchk ci Dot) k n at0 s = dotstar k at0 s.
Proof.
  induction n as [|n IH]; intros at0 s Hn.
  - destruct s; [|simpl in Hn; lia]. simpl. reflexivity.
  - destruct s as [|a s]; [reflexivity|].
    cbn [star_loop matchk dotstar]. f_equal. f_equal.
    simpl in Hn.
    replace (Nat.ltb (String.length s) (String.length (String a s))) with true.
    + apply IH. lia.
    + symmetry. apply Nat.ltb_lt. simpl. lia.
Qed.

Lemma matchk_seq (ci : bool) (r1 r2 : regex) (k : bool -> string -> bool)
    (at0 : bool) (s : string) :
  matchk ci (Seq r1 r2) k at0 s = matchk ci r1 (matchk ci r2 k) at0 s.
Proof. reflexivity. Qed.

Lemma matchk_dotstar (ci g : bool) (k : bool -> string -> bool) (at0 : bool) (s : string) :
  matchk ci (Star g Dot) k at0 s = dotstar k at0 s.
Proof.
  change (matchk ci (Star g Dot) k at0 s)
    with (star_loop (matchk ci Dot) k (String.length s) at0 s).
  now apply star_loop_dot.
Qed.

Lemma dotstar_ext (k k' : bool -> string -> bool) :
  (forall a s, k a s = k' a s) ->
  forall at0 s, dotstar k at0 s = dotstar k' at0 s.
Proof.
  intros Hk at0 s. revert at0.
  induction s as [|a s IH]; intros at0; cbn [dotstar]; rewrite Hk;
    [reflexivity | now rewrite IH].
Qed.

(** [.*$] succeeds on the inputs of a single line. *)
Lemma dotstar_eol (ci : bool) (at0 : bool) (s : string) :
  matchk ci (seq_of [Star true Dot; Eol]) (fun _ _ => true) at0 s = single_line s.
Proof.
  change (seq_of [Star true Dot; Eol]) with (Seq (Star true Dot) (Seq Eol Eps)).
  rewrite matchk_seq, matchk_dotstar.
  revert at0. induction s as [|a s IH]; intros at0; [reflexivity|].
  cbn [dotstar]. rewrite IH. reflexivity.
Qed.

(** On a single line, [.*?w] ahead is an occurrence of [w]. *)
Lemma dotstar_prefix_single_line (ci : bool) (w : string) (s : string) :
  single_line s = true ->
  forall at0,
    dotstar (fun _ s' => prefix_matches ci w s') at0 s = occurs ci w s.
Proof.
  induction s as [|a s IH]; intros Hs at0; [reflexivity|].
  cbn [dotstar occurs]. f_equal.
  unfold single_line in Hs. cbn [forallb_string] in Hs.
  apply andb_prop in Hs. destruct Hs as [Ha Hs].
  rewrite Ha. cbn [andb]. now apply IH.
Qed.

Lemma matchk_lookahead (ci : bool) (w : string) (k : bool -> string -> bool)
    (at0 : bool) (s : string) :
  matchk ci (lookahead_of w) k at0 s =
  dotstar (fun _ s' => prefix_matches ci w s') at0 s && k at0 s.
Proof.
  unfold lookahead_of.
  change (matchk ci (Lookahead ?r) k at0 s)
    with (matchk ci r (fun _ _ => true) at0 s && k at0 s).
  f_equal.
  change (seq_of (Star false Dot :: chars_of w))
    with (Seq (Star false Dot) (seq_of (chars_of w))).
  rewrite matchk_seq, matchk_dotstar.
  apply dotstar_ext. intros a s'. apply matchk_chars.
Qed.

Lemma matchk_lookaheads (ci : bool) (ws : list string) (s : string) :
  matchk ci (seq_of (map lookahead_of ws ++ [Star true Dot; Eol]))
         (fun _ _ => true) true s =
  forallb (fun w => dotstar (fun _ s' => prefix_matches ci w s') true s) ws
  && single_line s.
Proof.
  induction ws as [|w ws IH].
  - cbn [map app forallb andb]. apply dotstar_eol.
  - cbn [map app forallb].
    change (seq_of (lookahead_of w :: ?l)) with (Seq (lookahead_of w) (seq_of l)).
    rewrite matchk_seq, matchk_lookahead, IH. now rewrite andb_assoc.
Qed.

Lemma search_from_bol_later (ci : bool) (r : regex) (s : string) :
  search_from ci (Seq Bol r) false s = false.
Proof. induction s as [|a s IH]; simpl; [reflexivity | exact IH]. Qed.

Lemma search_from_bol (ci : bool) (r : regex) (s : string) :
  search_from ci (Seq Bol r) true s = matchk ci r (fun _ _ => true) true s.
Proof.
  destruct s as [|a s]; cbn [search_from matchk andb].
  - now rewrite orb_false_r.
  - now rewrite search_from_bol_later, orb_false_r.
Qed.

(** The smart pattern of the words [ws] matches [s] exactly when [s] is a
    single line in which every word occurs, whatever the case. *)
Lemma smart_regex_matches (ws : list string) (s : string) :
  search_from true (smart_regex ws) true s =
  single_line s && forallb (fun w => occurs true w s) ws.
Proof.
  unfold smart_regex.
  change (seq_of (Bol :: ?l)) with (Seq Bol (seq_of l)).
  rewrite search_from_bol, matchk_lookaheads, andb_comm.
  destruct (single_line s) eqn:Hs; [|reflexivity]. cbn [andb].
  induction ws as [|w ws IH]; [reflexivity|].
  cbn [forallb]. rewrite IH. f_equal.
  now apply dotstar_prefix_single_line.
Qed.

(** A pattern that is a plain word matches where the word occurs. *)
Lemma word_regex_matches (ci : bool) (w : string) (s : string) :
  search_from ci (seq_of (chars_of w)) true s = occurs ci w s.
Proof.
  generalize true. induction s as [|a s IH]; intros at0.
  - cbn [search_from occurs]. now rewrite matchk_chars.
  - cbn [search_from occurs]. now rewrite matchk_chars, IH.
Qed.

(** ** Smart search: the words of an escaped text *)

Lemma escape_text_app (a b : string) :
  escape_text (a ++ b) = (escape_text a ++ escape_text b)%string.
Proof.
  induction a as [|c a IH]; [reflexivity|]. simpl.
  destruct (is_meta c); simpl; now rewrite IH.
Qed.

Lemma escape_text_nonempty (c : ascii) (s : string) :
  exists c' s', escape_text (String c s) = String c' s'.
Proof. simpl. destruct (is_meta c); eauto. Qed.

Lemma span_app (p : ascii -> bool) (s : string) :
  s = (fst (span p s) ++ snd (span p s))%string.
Proof.
  induction s as [|c s IH]; [reflexivity|]. simpl.
  destruct (p c); [|reflexivity].
  destruct (span p s) as [run rest]. simpl in *. now rewrite <- IH.
Qed.

Lemma span_escape (p : ascii -> bool) :
  p "\"%char = true ->
  (forall c, is_meta c = true -> p c = true) ->
  forall s,
    span p (escape_text s) =
    (escape_text (fst (span p s)), escape_text (snd (span p s))).
Proof.
  intros Hb Hm. induction s as [|c s IH]; [reflexivity|].
  cbn [escape_text span].
  destruct (is_meta c) eqn:Hc.
  - cbn [span]. rewrite Hb, (Hm c Hc), IH.
    destruct (span p s) as [run rest]. cbn [fst snd escape_text]. now rewrite Hc.
  - cbn [span]. destruct (p c) eqn:Hp.
    + rewrite IH. destruct (span p s) as [run rest]. cbn [fst snd escape_text].
      now rewrite Hc.
    + cbn [fst snd escape_text]. now rewrite Hc.
Qed.

Lemma not_dquote_meta (c : ascii) : is_meta c = true -> not_dquote c = true.
Proof.
  intros Hc. unfold not_dquote.
  destruct (Ascii.eqb_spec c dquote) as [->|]; [discriminate | reflexivity].
Qed.

Lemma not_space_meta (c : ascii) : is_meta c = true -> not_space c = true.
Proof.
  intros Hc. unfold not_space.
  destruct (Ascii.eqb_spec c space) as [->|]; [discriminate | reflexivity].
Qed.

Lemma escape_text_empty_iff (s : string) :
  escape_text s = EmptyString <-> s = EmptyString.
Proof.
  destruct s as [|c s]; [tauto|]. simpl.
  destruct (is_meta c); split; discriminate.
Qed.

(** The first character of an escaped text is a double quote only when
    that of the text is. *)
Lemma escape_text_head_dquote (c : ascii) (s : string) :
  Ascii.eqb c dquote = false ->
  exists c' s', escape_text (String c s) = String c' s' /\ Ascii.eqb c' dquote = false.
Proof.
  intros Hc. simpl. destruct (is_meta c); eauto.
Qed.

Lemma match_at_escape (s : string) :
  match_at (escape_text s) = option_map escape_text (match_at s).
Proof.
  assert (Hsp : match span not_space (escape_text s) with
                | (String _ _ as run, _) => Some run
                | _ => None
                end =
                option_map escape_text
                  match span not_space s with
                  | (String _ _ as run, _) => Some run
                  | _ => None
                  end).
  { rewrite (span_escape not_space eq_refl not_space_meta).
    destruct (span not_space s) as [[|a run] rest]; cbn [fst snd]; [reflexivity|].
    cbn [option_map].
    destruct (escape_text_nonempty a run) as (c' & s' & He). now rewrite He. }
  destruct s as [|c s1]; [reflexivity|].
  destruct (Ascii.eqb c dquote) eqn:Hq.
  - apply Ascii.eqb_eq in Hq. subst c.
    change (escape_text (String dquote s1)) with (String dquote (escape_text s1)).
    unfold match_at at 1 2. rewrite Ascii.eqb_refl.
    rewrite (span_escape not_dquote eq_refl not_dquote_meta).
    change (escape_text (String dquote s1)) with (String dquote (escape_text s1)) in Hsp.
    destruct (span not_dquote s1) as [[|a run] [|b rest]]; cbn [fst snd].
    + exact Hsp.
    + cbn [escape_text]. exact Hsp.
    + destruct (escape_text_nonempty a run) as (c' & s' & He).
      rewrite He. cbn [escape_text]. exact Hsp.
    + destruct (escape_text_nonempty a run) as (c' & s' & Hrun).
      destruct (escape_text_nonempty b rest) as (c2 & s2 & Hrest).
      rewrite Hrun, Hrest. rewrite <- Hrun. cbn [option_map]. f_equal.
      change (String dquote (String a run ++ String dquote EmptyString))
        with (String dquote EmptyString ++ (String a run ++ String dquote EmptyString))%string.
      now rewrite !escape_text_app.
  - destruct (escape_text_head_dquote c s1 Hq) as (c' & s' & He & Hq').
    unfold match_at at 1 2. rewrite Hq.
    rewrite He in *. rewrite Hq'. exact Hsp.
Qed.

Lemma string_drop_app (m rest : string) :
  string_drop (String.length m) (m ++ rest) = rest.
Proof. induction m as [|c m IH]; [now destruct rest | exact IH]. Qed.

Lemma string_length_app (a b : string) :
  String.length (a ++ b) = String.length a + String.length b.
Proof. induction a as [|c a IH]; simpl; [reflexivity | now rewrite IH]. Qed.

Lemma scan_matches_skip (s : string) :
  forall k, scan_matches k s = scan_matches 0 (string_drop k s).
Proof.
  induction s as [|c s IH]; intros k.
  - now destruct k.
  - destruct k as [|k]; [reflexivity|]. cbn [scan_matches string_drop]. apply IH.
Qed.

Lemma span_stop (p : ascii -> bool) (s : string) :
  match snd (span p s) with
  | String b _ => p b = false
  | EmptyString => True
  end.
Proof.
  induction s as [|c s IH]; [exact I|]. simpl.
  destruct (p c) eqn:Hp; [|exact Hp].
  destruct (span p s) as [run rest]. exact IH.
Qed.

(** A match is a non-empty prefix of the text it was found in. *)
Lemma match_at_prefix (s m : string) :
  match_at s = Some m ->
  exists c m' rest, m = String c m' /\ s = (m ++ rest)%string.
Proof.
  unfold match_at. intros H.
  assert (Hsp : match span not_space s with
                | (String _ _ as run, _) => Some run
                | _ => None
                end = Some m ->
                exists c m' rest, m = String c m' /\ s = (m ++ rest)%string).
  { pose proof (span_app not_space s) as Hs.
    destruct (span not_space s) as [[|a run] rest]; [discriminate|].
    intros [= <-]. exists a, run, rest. split; [reflexivity | exact Hs]. }
  destruct s as [|c s1]; [discriminate|].
  destruct (Ascii.eqb c dquote) eqn:Hq; [|now apply Hsp].
  pose proof (span_app not_dquote s1) as Hs.
  pose proof (span_stop not_dquote s1) as Hstop.
  destruct (span not_dquote s1) as [[|a run] [|b rest]]; try (now apply Hsp).
  injection H as <-. apply Ascii.eqb_eq in Hq. subst c.
  cbn [fst snd] in Hs, Hstop. unfold not_dquote in Hstop.
  destruct (Ascii.eqb_spec b dquote) as [->|Hb]; [|discriminate].
  exists dquote, (String a run ++ String dquote EmptyString)%string, rest.
  split; [reflexivity|]. rewrite Hs.
  simpl. f_equal. f_equal. now rewrite string_app_assoc.
Qed.

Lemma scan_matches_found (s m rest : string) :
  s = (m ++ rest)%string ->
  match_at s = Some m ->
  scan_matches 0 s = m :: scan_matches 0 rest.
Proof.
  intros -> H. destruct (match_at_prefix _ _ H) as (c & m' & rest' & -> & _).
  change ((String c m' ++ rest)%string) with (String c (m' ++ rest)) in *.
  cbn [scan_matches]. rewrite H. f_equal.
  rewrite scan_matches_skip.
  replace (String.length (String c m') - 1) with (String.length m')
    by (simpl; lia).
  now rewrite string_drop_app.
Qed.

Lemma scan_matches_not_found (c : ascii) (s : string) :
  match_at (String c s) = None ->
  scan_matches 0 (String c s) = scan_matches 0 s.
Proof. intros H. cbn [scan_matches]. now rewrite H. Qed.

Lemma match_at_none_space (c : ascii) (s : string) :
  match_at (String c s) = None -> c = space.
Proof.
  unfold match_at. intros H.
  assert (Hsp : match span not_space (String c s) with
                | (String _ _ as run, _) => Some run
                | _ => None
                end = None).
  { destruct (Ascii.eqb c dquote); [|exact H].
    destruct (span not_dquote s) as [[|a run] [|b rest]]; try exact H. discriminate. }
  cbn [span] in Hsp. unfold not_space at 1 in Hsp.
  destruct (Ascii.eqb_spec c space) as [->|]; [reflexivity|].
  cbn [negb] in Hsp. destruct (span not_space s). discriminate.
Qed.

(** The matches of an escaped text are the escaped matches of the text. *)
Lemma scan_matches_escape (n : nat) :
  forall s, String.length s <= n ->
    scan_matches 0 (escape_text s) = map escape_text (scan_matches 0 s).
Proof.
  induction n as [|n IH]; intros s Hn.
  - destruct s; [reflexivity | simpl in Hn; lia].
  - destruct s as [|c s]; [reflexivity|].
    destruct (match_at (String c s)) as [m|] eqn:Hm.
    + destruct (match_at_prefix _ _ Hm) as (c0 & m' & rest & Hmm & Hs).
      rewrite (scan_matches_found _ m rest Hs Hm).
      rewrite (scan_matches_found (escape_text (String c s)) (escape_text m)
                 (escape_text rest)).
      * cbn [map]. f_equal. apply IH.
        apply (f_equal String.length) in Hs. rewrite string_length_app in Hs.
        subst m. simpl in Hs, Hn. lia.
      * rewrite Hs. apply escape_text_app.
      * now rewrite match_at_escape, Hm.
    + pose proof (match_at_none_space _ _ Hm) as ->.
      rewrite (scan_matches_not_found _ _ Hm).
      change (escape_text (String space s)) with (String space (escape_text s)).
      rewrite scan_matches_not_found.
      * apply IH. simpl in Hn. lia.
      * change (String space (escape_text s)) with (escape_text (String space s)).
        now rewrite match_at_escape, Hm.
Qed.

Lemma match_words_escape (s : string) :
  match_words (escape_text s) = map escape_text (match_words s).
Proof.
  unfold match_words. rewrite (scan_matches_escape (String.length s) s (le_n _)).
  now destruct (scan_matches 0 s).
Qed.

Lemma remove_first_dquote_escape (w : string) :
  remove_first_dquote (escape_text w) = escape_text (remove_first_dquote w).
Proof.
  induction w as [|c w IH]; [reflexivity|].
  cbn [escape_text remove_first_dquote].
  destruct (Ascii.eqb c dquote) eqn:Hq.
  - apply Ascii.eqb_eq in Hq. subst c. reflexivity.
  - destruct (is_meta c) eqn:Hc; cbn [remove_first_dquote Ascii.eqb Bool.eqb dquote];
      rewrite ?Hq, IH; cbn [escape_text]; now rewrite Hc.
Qed.

Lemma drop_last_escape (w : string) :
  drop_last dquote (escape_text w) = option_map escape_text (drop_last dquote w).
Proof.
  induction w as [|c w IH]; [reflexivity|].
  destruct w as [|c2 w].
  - cbn [escape_text drop_last].
    destruct (is_meta c) eqn:Hc.
    + cbn [drop_last].
      destruct (Ascii.eqb_spec c dquote) as [->|]; [discriminate | reflexivity].
    + cbn [drop_last]. destruct (Ascii.eqb c dquote); reflexivity.
  - change (drop_last dquote (String c (String c2 w)))
      with (match drop_last dquote (String c2 w) with
            | Some r => Some (String c r)
            | None => None
            end).
    destruct (escape_text_nonempty c2 w) as (x & y & He).
    change (escape_text (String c (String c2 w)))
      with (if is_meta c then String "\" (String c (escape_text (String c2 w)))
            else String c (escape_text (String c2 w))).
    rewrite He in *.
    destruct (is_meta c) eqn:Hc.
    + change (drop_last dquote (String "\" (String c (String x y))))
        with (match (match drop_last dquote (String x y) with
                     | Some r => Some (String c r)
                     | None => None
                     end) with
              | Some r => Some (String "\" r)
              | None => None
              end).
      rewrite IH. destruct (drop_last dquote (String c2 w)); cbn [option_map escape_text];
        [now rewrite Hc | reflexivity].
    + change (drop_last dquote (String c (String x y)))
        with (match drop_last dquote (String x y) with
              | Some r => Some (String c r)
              | None => None
              end).
      rewrite IH. destruct (drop_last dquote (String c2 w)); cbn [option_map escape_text];
        [now rewrite Hc | reflexivity].
Qed.

Lemma single_line_escape (w : string) :
  single_line (escape_text w) = single_line w.
Proof.
  unfold single_line. induction w as [|c w IH]; [reflexivity|].
  cbn [escape_text]. destruct (is_meta c); cbn [forallb_string]; now rewrite IH.
Qed.

Lemma quoted_body_escape (w : string) :
  quoted_body (escape_text w) = option_map escape_text (quoted_body w).
Proof.
  destruct w as [|c w]; [reflexivity|].
  destruct (Ascii.eqb c dquote) eqn:Hq.
  - apply Ascii.eqb_eq in Hq. subst c.
    change (escape_text (String dquote w)) with (String dquote (escape_text w)).
    unfold quoted_body. rewrite Ascii.eqb_refl, drop_last_escape.
    destruct (drop_last dquote w) as [mid|]; cbn [option_map]; [|reflexivity].
    fold (single_line (escape_text mid)). fold (single_line mid).
    rewrite single_line_escape. now destruct (single_line mid).
  - destruct (escape_text_head_dquote c w Hq) as (c' & s' & He & Hq').
    rewrite He. unfold quoted_body. now rewrite Hq, Hq'.
Qed.

Lemma strip_word_escape (w : string) :
  strip_word (escape_text w) = escape_text (strip_word w).
Proof.
  destruct w as [|c w]; [reflexivity|].
  unfold strip_word. rewrite <- remove_first_dquote_escape. f_equal.
  destruct (Ascii.eqb c dquote) eqn:Hq.
  - apply Ascii.eqb_eq in Hq. subst c.
    rewrite quoted_body_escape.
    change (escape_text (String dquote w)) with (String dquote (escape_text w)).
    cbv beta iota. rewrite Ascii.eqb_refl.
    now destruct (quoted_body (String dquote w)).
  - destruct (escape_text_head_dquote c w Hq) as (c' & s' & He & Hq').
    rewrite He. now rewrite Hq'.
Qed.

(** The words of an escaped text are the escaped words of the text. *)
Lemma smart_words_escape (s : string) :
  smart_words (escape_text s) = map escape_text (smart_words s).
Proof.
  unfold smart_words. rewrite match_words_escape, !map_map.
  apply map_ext. exact strip_word_escape.
Qed.

Lemma smart_words_nonempty (s : string) : smart_words s <> [].
Proof.
  unfold smart_words, match_words.
  destruct (scan_matches 0 s); discriminate.
Qed.

(** ** Smart search: words and quoted phrases *)

Lemma forallb_string_impl (p q : ascii -> bool) (s : string) :
  (forall c, p c = true -> q c = true) ->
  forallb_string p s = true -> forallb_string q s = true.
Proof.
  intros Hpq. induction s as [|c s IH]; [reflexivity|]. cbn [forallb_string].
  intros H. apply andb_prop in H. destruct H as [Hc Hs].
  now rewrite (Hpq c Hc), IH.
Qed.

Lemma span_all (p : ascii -> bool) (w tail : string) :
  forallb_string p w = true ->
  match tail with String b _ => p b = false | EmptyString => True end ->
  span p (w ++ tail) = (w, tail).
Proof.
  intros Hw Ht. induction w as [|c w IH].
  - destruct tail as [|b t]; [reflexivity|]. simpl. now rewrite Ht.
  - cbn [forallb_string] in Hw. apply andb_prop in Hw. destruct Hw as [Hc Hw].
    simpl. rewrite Hc, (IH Hw). reflexivity.
Qed.

Lemma match_at_item (i : item) (tail : string) :
  well_formed i = true ->
  match i with Word _ => ends_item tail | Phrase _ => True end ->
  match_at (show i ++ tail) = Some (show i).
Proof.
  intros Hwf Ht. destruct i as [w|p]; cbn [well_formed show] in *;
    apply andb_prop in Hwf; destruct Hwf as [Hne Hall].
  - destruct w as [|c w]; [discriminate|]. clear Hne.
    assert (Hsp : span not_space (String c w ++ tail) = (String c w, tail)).
    { apply span_all.
      - revert Hall. apply forallb_string_impl. intros x Hx.
        now apply andb_prop in Hx.
      - destruct Ht as [->|(t & ->)]; [exact I | reflexivity]. }
    cbn [forallb_string] in Hall. apply andb_prop in Hall. destruct Hall as [Hc _].
    apply andb_prop in Hc. destruct Hc as [_ Hq]. unfold not_dquote in Hq.
    apply negb_true_iff in Hq. unfold match_at.
    change ((String c w ++ tail)%string) with (String c (w ++ tail)) in *.
    cbv beta iota zeta. rewrite Hq, Hsp. reflexivity.
  - destruct p as [|c p]; [discriminate|]. clear Hne.
    assert (Hsp : span not_dquote (String c p ++ String dquote tail)
                  = (String c p, String dquote tail)).
    { apply span_all.
      - revert Hall. apply forallb_string_impl. intros x Hx.
        now apply andb_prop in Hx.
      - reflexivity. }
    unfold match_at.
    change ((String dquote (String c p ++ String dquote EmptyString) ++ tail)%string)
      with (String dquote ((String c p ++ String dquote EmptyString) ++ tail)).
    cbv beta iota zeta. rewrite Ascii.eqb_refl, string_app_assoc.
    change ((String dquote EmptyString ++ tail)%string) with (String dquote tail).
    rewrite Hsp. reflexivity.
Qed.

Lemma match_at_space (t : string) : match_at (String space t) = None.
Proof. reflexivity. Qed.

Lemma scan_matches_spaces (n : nat) (s : string) :
  scan_matches 0 (spaces n ++ s) = scan_matches 0 s.
Proof.
  induction n as [|n IH]; [reflexivity|].
  change ((spaces (S n) ++ s)%string) with (String space (spaces n ++ s)).
  now rewrite (scan_matches_not_found space _ (match_at_space _)).
Qed.

Lemma scan_matches_only_spaces (n : nat) : scan_matches 0 (spaces n) = [].
Proof.
  induction n as [|n IH]; [reflexivity|].
  change (spaces (S n)) with (String space (spaces n)).
  now rewrite (scan_matches_not_found space _ (match_at_space _)).
Qed.

Lemma separated_ends_item (n : nat) (w : string) (l : list (nat * item))
    (trailing : nat) :
  separated ((n, Word w) :: l) = true -> ends_item (layout l trailing).
Proof.
  destruct l as [|[m j] l]; cbn [separated layout].
  - intros _. destruct trailing as [|k]; [now left | right; now eexists].
  - intros H. apply andb_prop in H. destruct H as [H _].
    destruct m as [|m]; [discriminate H|]. right. now eexists.
Qed.

Lemma scan_matches_layout (l : list (nat * item)) (trailing : nat) :
  forallb (fun p => well_formed (snd p)) l = true ->
  separated l = true ->
  scan_matches 0 (layout l trailing) = map (fun p => show (snd p)) l.
Proof.
  induction l as [|[n i] l IH]; intros Hwf Hsep.
  - apply scan_matches_only_spaces.
  - cbn [forallb snd] in Hwf. apply andb_prop in Hwf. destruct Hwf as [Hi Hrest].
    assert (Hsep' : separated l = true).
    { cbn [separated] in Hsep. apply andb_prop in Hsep. apply Hsep. }
    cbn [layout map snd]. rewrite scan_matches_spaces.
    rewrite (scan_matches_found _ (show i) (layout l trailing) eq_refl).
    + now rewrite (IH Hrest Hsep').
    + apply match_at_item; [exact Hi|].
      destruct i as [w|p]; [|exact I].
      exact (separated_ends_item n w l trailing Hsep).
Qed.

Lemma remove_first_dquote_none (w : string) :
  forallb_string not_dquote w = true -> remove_first_dquote w = w.
Proof.
  induction w as [|c w IH]; [reflexivity|]. cbn [forallb_string remove_first_dquote].
  intros H. apply andb_prop in H. destruct H as [Hc Hw].
  unfold not_dquote in Hc. destruct (Ascii.eqb c dquote); [discriminate|].
  now rewrite (IH Hw).
Qed.

Lemma drop_last_app (p : string) :
  drop_last dquote (p ++ String dquote EmptyString) = Some p.
Proof.
  induction p as [|c p IH]; [reflexivity|].
  change ((String c p ++ String dquote EmptyString)%string)
    with (String c (p ++ String dquote EmptyString)).
  destruct p as [|c2 p]; [reflexivity|].
  change (drop_last dquote (String c (String c2 p ++ String dquote EmptyString)))
    with (match drop_last dquote (String c2 p ++ String dquote EmptyString) with
          | Some r => Some (String c r)
          | None => None
          end).
  now rewrite IH.
Qed.

Lemma strip_word_show (i : item) :
  well_formed i = true -> strip_word (show i) = content i.
Proof.
  intros Hwf. destruct i as [w|p]; cbn [well_formed show content] in *;
    apply andb_prop in Hwf; destruct Hwf as [Hne Hall].
  - assert (Hq : forallb_string not_dquote w = true).
    { revert Hall. apply forallb_string_impl. intros x Hx.
      now apply andb_prop in Hx. }
    unfold strip_word. destruct w as [|c w]; [reflexivity|].
    pose proof Hq as Hq'. cbn [forallb_string] in Hq'.
    apply andb_prop in Hq'. destruct Hq' as [Hc _]. unfold not_dquote in Hc.
    apply negb_true_iff in Hc. rewrite Hc.
    now apply remove_first_dquote_none.
  - assert (Hq : forallb_string not_dquote p = true).
    { revert Hall. apply forallb_string_impl. intros x Hx.
      now apply andb_prop in Hx. }
    assert (Hl : single_line p = true).
    { unfold single_line. revert Hall. apply forallb_string_impl. intros x Hx.
      now apply andb_prop in Hx. }
    unfold strip_word, quoted_body. rewrite Ascii.eqb_refl, drop_last_app.
    fold (single_line p). rewrite Hl.
    now apply remove_first_dquote_none.
Qed.

(** The words of a text made of well-formed items are the contents of the
    items: each word, and each phrase without its quotes. *)
Lemma smart_words_layout (l : list (nat * item)) (trailing : nat) :
  l <> [] ->
  forallb (fun p => well_formed (snd p)) l = true ->
  separated l = true ->
  smart_words (layout l trailing) = map (fun p => content (snd p)) l.
Proof.
  intros Hne Hwf Hsep. unfold smart_words, match_words.
  rewrite (scan_matches_layout l trailing Hwf Hsep).
  destruct l as [|i l]; [contradiction|].
  transitivity (map strip_word (map (fun p => show (snd p)) (i :: l)));
    [reflexivity|].
  rewrite map_map. apply map_ext_in. intros x Hx. apply strip_word_show.
  rewrite forallb_forall in Hwf. now apply Hwf.
Qed.

(** ** Smart search *)

Lemma search_regex_smart_matches (smart : value) (text field_value : string) :
  truthy smart = true ->
  regex_test (search_regex smart (escape_text text)) field_value =
    Some (single_line field_value
          && forallb (fun w => occurs true w field_value) (smart_words text)).
Proof.
  intros Hs. unfold search_regex. rewrite Hs. unfold regex_test.
  rewrite smart_words_escape, (parse_smart_source _ (smart_words_nonempty text)).
  cbn [String.eqb Ascii.eqb Bool.eqb]. now rewrite smart_regex_matches.
Qed.

(** C6 (as the code has it).  The pattern compiled for a search text in
    smart mode matches a field value exactly when the value holds no line
    terminator and every word of the text occurs in it, in any order and
    whatever the case.  The words are those of [smart_words]: escaping
    the text escapes its words and changes nothing else, and for a text
    made of plain words and quoted phrases, with any number of spaces
    before, between and after them, in which every plain word is followed
    by a space or ends the text, the words are the plain words and the
    phrases without their quotes. *)
Theorem smart_search_pattern :
  (forall (smart : value) (text field_value : string),
      truthy smart = true ->
      regex_test (search_regex smart (escape_text text)) field_value =
        Some (single_line field_value
              && forallb (fun w => occurs true w field_value) (smart_words text)))
  /\
  (forall text,
      smart_words (escape_text text) = map escape_text (smart_words text))
  /\
  (forall (l : list (nat * item)) (trailing : nat),
      l <> [] ->
      forallb (fun p => well_formed (snd p)) l = true ->
      separated l = true ->
      smart_words (layout l trailing) = map (fun p => content (snd p)) l).
Proof.
  split; [|split].
  - exact search_regex_smart_matches.
  - exact smart_words_escape.
  - exact smart_words_layout.
Qed.

(** Without smart mode the pattern is the escaped text and matches the
    values in which the text occurs, whatever the case. *)
Lemma plain_search_pattern (smart : value) (text field_value : string) :
  truthy smart = false ->
  regex_test (search_regex smart (escape_text text)) field_value =
    Some (occurs true text field_value).
Proof.
  intros Hs. unfold search_regex. rewrite Hs. unfold regex_test.
  rewrite parse_escaped_text. cbn [String.eqb Ascii.eqb Bool.eqb].
  now rewrite word_regex_matches.
Qed.

(** C6 (as the specification words it) fails.  The one word of [jo] occurs
    in a value of two lines, which the pattern does not match; in
    [quote_inside_word] the run between the quotes is not one token: the
    words are [xa] and [b]; and the quoted run of [phrase_of_two_lines]
    is one token that keeps its closing quote. *)
Lemma smart_search_line_and_quote :
  smart_words "jo" = ["jo"] /\
  occurs true "jo" two_lines = true /\
  regex_test (search_regex (VBool true) (escape_text "jo")) two_lines = Some false /\
  smart_words (escape_text quote_inside_word) = ["xa"; "b"] /\
  smart_words (escape_text phrase_of_two_lines) =
    [("a" ++ String "010"%char ("b" ++ String dquote EmptyString))%string].
Proof. repeat split; vm_compute; reflexivity. Qed.

Lemma smart_search_pattern_witness :
  smart_words (layout phrase_and_word 1) = ["John Doe"; "Jane"] /\
  regex_test (search_regex (VBool true) (escape_text (layout phrase_and_word 1)))
             "jane met john doe" = Some true.
Proof.
  destruct smart_search_pattern as (Hmatch & _ & Hwords). split.
  - apply (Hwords phrase_and_word 1); [discriminate | reflexivity | reflexivity].
  - rewrite (Hmatch (VBool true) (layout phrase_and_word 1) "jane met john doe" eq_refl).
    reflexivity.
Defined.

(** The same, on the compiled filter of a descriptor with one searchable
    column, named otherwise than [__proto__]. *)
Corollary smart_search_compiled {E : Engine} (params : value) (text : string)
    (smart field : value) (key : string) (b : props) (field_value : string) :
  searching params text smart ->
  truthy smart = true ->
  getSearchableFields params = Return [field] ->
  ToPropertyKey field = Return key ->
  key <> "__proto__" ->
  base_filter params = VObj b ->
  exists o re,
    compiled_filter params = Some (VObj o) /\
    lookup key o = Some re /\
    regex_test re field_value =
      Some (single_line field_value
            && forallb (fun w => occurs true w field_value) (smart_words text)).
Proof.
  intros Hs Hsm Hf Hk Hproto Hb.
  exists (set_prop key (search_regex smart (escape_text text)) b),
         (search_regex smart (escape_text text)).
  split.
  { rewrite <- (assign_prop_other key _ b Hproto).
    exact (compiled_filter_one_field params text smart field key b Hs Hf Hk Hb). }
  split; [apply lookup_set_prop_same|].
  exact (search_regex_smart_matches smart text field_value Hsm).
Qed.

(** * Further properties *)

(** ** Text Escaper *)

Lemma escape_text_length (s : string) :
  String.length (escape_text s) = String.length s + count_meta s.
Proof.
  induction s as [|c s IH]; [reflexivity|]. cbn [escape_text count_meta].
  destruct (is_meta c); cbn [String.length]; rewrite IH; lia.
Qed.

Lemma no_meta_count (s : string) : no_meta s = true <-> count_meta s = 0.
Proof.
  unfold no_meta. induction s as [|c s IH]; [now split|].
  cbn [forallb_string count_meta]. destruct (is_meta c); cbn [negb andb].
  - split; [discriminate | intros H; simpl in H; lia].
  - simpl. exact IH.
Qed.

Lemma escape_text_no_meta (s : string) : no_meta s = true -> escape_text s = s.
Proof.
  unfold no_meta. induction s as [|c s IH]; [reflexivity|].
  cbn [forallb_string escape_text]. intros H. apply andb_prop in H.
  destruct H as [Hc Hs]. apply negb_true_iff in Hc. rewrite Hc. now rewrite IH.
Qed.

Lemma escape_text_keeps_meta (s : string) :
  no_meta (escape_text s) = no_meta s.
Proof.
  unfold no_meta. induction s as [|c s IH]; [reflexivity|].
  cbn [escape_text forallb_string]. destruct (is_meta c) eqn:Hc.
  - reflexivity.
  - cbn [forallb_string]. now rewrite Hc, IH.
Qed.

(** X1.  The escaper leaves a text as it is exactly when the text holds
    none of the sixteen characters of the table, and escaping twice is
    escaping once exactly for those texts: any escaped character brings a
    backslash, which is escaped in turn. *)
Theorem escaping_is_idempotent_only_without_metacharacters (s : string) :
  (escape_text s = s <-> no_meta s = true) /\
  (escape_text (escape_text s) = escape_text s <-> no_meta s = true).
Proof.
  assert (Hfix : forall t, escape_text t = t <-> no_meta t = true).
  { intros t. split; [|apply escape_text_no_meta].
    intros H. apply no_meta_count. apply (f_equal String.length) in H.
    rewrite escape_text_length in H. lia. }
  split; [apply Hfix|].
  rewrite Hfix. now rewrite escape_text_keeps_meta.
Qed.

Lemma unescape_escape_text (s : string) : unescape (escape_text s) = s.
Proof.
  induction s as [|c s IH]; [reflexivity|]. cbn [escape_text].
  destruct (is_meta c) eqn:Hc.
  - cbn [unescape Ascii.eqb Bool.eqb]. now rewrite IH.
  - cbn [unescape].
    rewrite (is_meta_false_neq c "\" Hc eq_refl). now rewrite IH.
Qed.

(** X2.  The escaper loses nothing: the text can be read back from its
    escaped form, so two texts with the same escaped form are the same
    text. *)
Theorem escaping_is_reversible (a b : string) :
  unescape (escape_text a) = a /\
  (escape_text a = escape_text b <-> a = b).
Proof.
  split; [apply unescape_escape_text|]. split; [|now intros ->].
  intros H. apply (f_equal unescape) in H.
  now rewrite !unescape_escape_text in H.
Qed.

(** X3.  An escaped text, used as a pattern, is a literal: with the flag
    [i] it matches the values in which the text occurs whatever the case,
    and without flag those in which it occurs as it is.  None of its
    characters acts as an operator. *)
Theorem escaped_text_is_a_literal_pattern (text field_value : string) :
  regex_test (VRegExp (escape_text text) "i") field_value =
    Some (occurs true text field_value) /\
  regex_test (VRegExp (escape_text text) EmptyString) field_value =
    Some (occurs false text field_value).
Proof.
  unfold regex_test. rewrite parse_escaped_text.
  cbn [String.eqb Ascii.eqb Bool.eqb]. now rewrite !word_regex_matches.
Qed.

(** X4.  The pattern the filter compiler hands to [RegExp] is always a
    pattern: in smart mode and without, whatever the search text, it
    reads as an expression, so the constructor has nothing to refuse. *)
Theorem search_pattern_is_well_formed (smart : value) (text : string) :
  exists source r,
    search_regex smart (escape_text text) = VRegExp source "i" /\
    parse source = Some r.
Proof.
  unfold search_regex. destruct (truthy smart).
  - eexists. exists (smart_regex (smart_words text)). split; [reflexivity|].
    rewrite smart_words_escape.
    apply parse_smart_source. apply smart_words_nonempty.
  - eexists. exists (seq_of (chars_of text)). split; [reflexivity|].
    apply parse_escaped_text.
Qed.

(** ** Smart search on degenerate texts *)

Lemma scan_matches_blank (s : string) :
  blank s = true -> scan_matches 0 s = [].
Proof.
  unfold blank. induction s as [|c s IH]; [reflexivity|].
  cbn [forallb_string]. intros H. apply andb_prop in H. destruct H as [Hc Hs].
  apply Ascii.eqb_eq in Hc. subst c.
  rewrite (scan_matches_not_found space s (match_at_space s)). now apply IH.
Qed.

(** X5.  A search text made of spaces only has no word: in smart mode the
    pattern built from it holds one empty lookahead and matches every
    value of a single line, so the search filters nothing out. *)
Theorem blank_smart_search_matches_every_line (text field_value : string) :
  blank text = true ->
  smart_words text = [EmptyString] /\
  regex_test (search_regex (VBool true) (escape_text text)) field_value =
    Some (single_line field_value).
Proof.
  intros Hb.
  assert (Hw : smart_words text = [EmptyString]).
  { unfold smart_words, match_words. now rewrite (scan_matches_blank text Hb). }
  split; [exact Hw|].
  rewrite (search_regex_smart_matches (VBool true) text field_value eq_refl), Hw.
  cbn [forallb]. destruct field_value; cbn [occurs prefix_matches orb andb];
    now rewrite andb_true_r.
Qed.

Lemma blank_smart_search_matches_every_line_witness :
  smart_words "   " = [EmptyString] /\
  regex_test (search_regex (VBool true) (escape_text "   ")) "Bob" = Some true.
Proof.
  exact (blank_smart_search_matches_every_line "   " "Bob" eq_refl).
Defined.

(** ** Filter Compiler: the guard, the empty text, the base filter *)

Section FilterCompilerMore.
Context {E : Engine}.

(** Past the guard the compiler returns a filter or throws. *)
Lemma buildFindParameters_body_some (params c srch v : value) :
  truthy params = true ->
  get params "columns" = Return c -> truthy c = true ->
  get params "search" = Return srch -> truthy srch = true ->
  get srch "value" = Return v ->
  negb (truthy v) && negb (is_str EmptyString v) = false ->
  forall r p', buildFindParameters_body params = Return (r, p') -> r <> None.
Proof.
  intros Hp Hc Hct Hs Hst Hv Hg r p'. unfold buildFindParameters_body.
  rewrite Hp. cbn [negb]. rewrite Hc. cbn [bind]. rewrite Hct. cbn [negb].
  rewrite Hs. cbn [bind]. rewrite Hst. cbn [negb]. rewrite Hv. cbn [bind].
  rewrite Hg. intros H.
  repeat
    (first
       [ injection H as <- <-; discriminate
       | match type of H with
         | context [assign ?p ?h ?o] =>
             destruct (assign p h o); injection H as <- <-; discriminate
         end
       | case_bind H ]).
Qed.

(** X6.  The filter compiler answers [null] exactly when its opening
    guard holds: the descriptor, its [columns] or its [search] is falsy,
    or [search.value] is falsy without being the empty string.  The
    descriptor is then left as it was; on every other descriptor the
    compiler returns a filter object or throws. *)
Theorem filter_compiler_null_iff_guard (params : value) :
  (fst (buildFindParameters params) = Return None <-> find_guard params = true) /\
  (find_guard params = true -> snd (buildFindParameters params) = params).
Proof.
  unfold find_guard.
  destruct (truthy params) eqn:Hp.
  2:{ unfold buildFindParameters, buildFindParameters_body. rewrite Hp.
      cbn. now repeat split. }
  destruct (get_total params "columns" Hp) as (c & Hc).
  destruct (get_total params "search" Hp) as (srch & Hs).
  rewrite Hc, Hs. cbn [negb orb].
  destruct (truthy c) eqn:Hct.
  2:{ unfold buildFindParameters, buildFindParameters_body.
      rewrite Hp, Hc. cbn [negb bind]. rewrite Hct. cbn. now repeat split. }
  cbn [negb orb].
  destruct (truthy srch) eqn:Hst.
  2:{ unfold buildFindParameters, buildFindParameters_body.
      rewrite Hp, Hc. cbn [negb bind]. rewrite Hct. cbn [negb].
      rewrite Hs. cbn [bind]. rewrite Hst. cbn. now repeat split. }
  cbn [negb orb].
  destruct (get_total srch "value" Hst) as (v & Hv). rewrite Hv.
  destruct (negb (truthy v) && negb (is_str EmptyString v)) eqn:Hg.
  - unfold buildFindParameters, buildFindParameters_body.
    rewrite Hp, Hc. cbn [negb bind]. rewrite Hct. cbn [negb].
    rewrite Hs. cbn [bind]. rewrite Hst. cbn [negb]. rewrite Hv. cbn [bind].
    rewrite Hg. cbn. now repeat split.
  - split; [|discriminate]. split; [|discriminate].
    intros H. unfold buildFindParameters in H.
    destruct (buildFindParameters_body params) as [[r p']| |] eqn:Hb;
      cbn in H; try discriminate H.
    injection H as ->.
    now destruct (buildFindParameters_body_some params c srch v
                    Hp Hc Hct Hs Hst Hv Hg None p' Hb).
Qed.

(** X7.  On an empty search text the compiler returns the base filter as
    it is, without reading the columns' flags: the caller's [find] itself
    when there is one, a new empty filter otherwise.  The descriptor is
    not modified. *)
Theorem empty_search_text_returns_the_base_filter (params c srch : value) :
  get params "columns" = Return c -> truthy c = true ->
  get params "search" = Return srch -> truthy srch = true ->
  get srch "value" = Return (VStr EmptyString) ->
  buildFindParameters params = (Return (Some (find_handle params)), params) /\
  compiled_filter params = Some (base_filter params).
Proof.
  intros Hc Hct Hs Hst Hv.
  assert (Hp : truthy params = true) by (eapply get_truthy_object; eassumption).
  assert (Hb : buildFindParameters params
               = (Return (Some (find_handle params)), params)).
  { unfold buildFindParameters, buildFindParameters_body, find_handle.
    rewrite Hp, Hc. cbn [negb bind]. rewrite Hct. cbn [negb].
    rewrite Hs. cbn [bind]. rewrite Hst. cbn [negb]. rewrite Hv.
    cbn [bind truthy is_str String.eqb negb andb escapeRegex escape_text].
    destruct (get_total params "find" Hp) as (f & Hf). rewrite Hf.
    cbn [bind]. reflexivity. }
  split; [exact Hb|].
  unfold compiled_filter. rewrite Hb. f_equal. now apply deref_find_handle.
Qed.

(** X8.  A [search.value] that is truthy without being a string (a
    number, [true], an object) makes the compiler throw a [TypeError]:
    only a string can be escaped.  The descriptor is not modified. *)
Theorem non_string_search_value_throws (params c srch v : value) :
  get params "columns" = Return c -> truthy c = true ->
  get params "search" = Return srch -> truthy srch = true ->
  get srch "value" = Return v -> truthy v = true ->
  (forall s, v <> VStr s) ->
  buildFindParameters params = (Throw TypeError, params).
Proof.
  intros Hc Hct Hs Hst Hv Hvt Hns.
  assert (Hp : truthy params = true) by (eapply get_truthy_object; eassumption).
  unfold buildFindParameters, buildFindParameters_body.
  rewrite Hp, Hc. cbn [negb bind]. rewrite Hct. cbn [negb].
  rewrite Hs. cbn [bind]. rewrite Hst. cbn [negb]. rewrite Hv. cbn [bind].
  rewrite Hvt. cbn [negb andb].
  destruct v; try reflexivity. now destruct (Hns s).
Qed.

Lemma falsy_find_unchanged (params : value) :
  (forall f, get params "find" = Return f -> truthy f = false) ->
  snd (buildFindParameters params) = params.
Proof.
  intros Hfalsy. unfold buildFindParameters.
  destruct (buildFindParameters_body params) as [[r p']| |] eqn:H;
    [|reflexivity..]. cbn [snd].
  unfold buildFindParameters_body in H.
  repeat
    (first
       [ injection H as <- <-; reflexivity
       | match goal with
         | Ht : truthy ?f = true |- _ =>
             rewrite (Hfalsy f eq_refl) in Ht; discriminate Ht
         end
       | match type of H with
         | context [assign ?p (Fresh ?x) ?o] =>
             change (assign p (Fresh x) o) with (Fresh o, p) in H;
             injection H as <- <-; reflexivity
         end
       | case_bind H ]).
Qed.

Lemma falsy_find_base_filter (params : value) :
  (forall f, get params "find" = Return f -> truthy f = false) ->
  base_filter params = VObj [].
Proof.
  intros H. unfold base_filter.
  destruct (get params "find") as [f| |]; try reflexivity.
  now rewrite (H f eq_refl).
Qed.

(** X9.  Without a [find] (absent, or falsy) the compiler works on an
    object of its own: whatever the rest of the descriptor and however
    the call completes, the descriptor is afterwards what it was, and
    [params.find || {}] is still the empty filter. *)
Theorem no_find_no_modification (params : value) :
  (forall f, get params "find" = Return f -> truthy f = false) ->
  snd (buildFindParameters params) = params /\
  base_filter (snd (buildFindParameters params)) = VObj [].
Proof.
  intros H. rewrite (falsy_find_unchanged params H).
  split; [reflexivity | now apply falsy_find_base_filter].
Qed.

Lemma set_prop_absent (k : string) (v : value) (o : props) :
  lookup k o = None -> set_prop k v o = o ++ [(k, v)].
Proof.
  induction o as [|[k' v'] o IH]; [reflexivity|]. simpl.
  destruct (String.eqb k k'); [discriminate|]. intros H. now rewrite IH.
Qed.

(** X10.  With one searchable column whose field name the base filter
    does not constrain, the compiled filter is the base filter followed by
    one more entry, the field with the search pattern: every constraint
    of the base filter is kept, in place.  The field name [__proto__] is
    the exception: no entry is added for it, and the compiled filter has
    the properties of the base filter and no other. *)
Theorem single_field_extends_the_base_filter (params : value) (text : string)
    (smart field : value) (key : string) (b : props) :
  searching params text smart ->
  getSearchableFields params = Return [field] ->
  ToPropertyKey field = Return key ->
  base_filter params = VObj b ->
  lookup key b = None ->
  compiled_filter params =
    Some (VObj (if String.eqb key "__proto__" then b
                else b ++ [(key, search_regex smart (escape_text text))])).
Proof.
  intros Hs Hf Hk Hb Hnone.
  rewrite (compiled_filter_one_field params text smart field key b Hs Hf Hk Hb).
  unfold assign_prop. rewrite Hnone.
  destruct (String.eqb key "__proto__"); [reflexivity|].
  now rewrite set_prop_absent.
Qed.

Lemma returned_handle_shared (params f : value) (h : handle) (p' : value) :
  get params "find" = Return f -> truthy f = true ->
  buildFindParameters_body params = Return (Some h, p') ->
  h = Shared.
Proof.
  intros Hf Ht H. unfold buildFindParameters_body in H.
  rewrite Hf in H. cbn [bind] in H. rewrite Ht in H.
  repeat
    (first
       [ injection H as <- <-; reflexivity
       | match type of H with
         | context [assign ?p Shared ?o] =>
             unfold assign in H; injection H as <- <-; reflexivity
         end
       | case_bind H ]).
Qed.

Lemma base_filter_shared (p : value) :
  truthy (deref p Shared) = true -> base_filter p = deref p Shared.
Proof.
  unfold base_filter, deref.
  destruct p as [| |b|n|s|src fl|l|o]; cbn; try discriminate.
  destruct (lookup "find" o) as [v|]; [|discriminate]. now intros ->.
Qed.

(** After a call that returned a filter for a descriptor with a [find],
    [params.find || {}] is that filter. *)
Lemma supplied_find_is_returned (params f : value) (h : handle) (p' : value) :
  get params "find" = Return f -> truthy f = true ->
  buildFindParameters params = (Return (Some h), p') ->
  h = Shared /\ base_filter p' = deref p' h.
Proof.
  intros Hf Ht H.
  pose proof (compiled_handle_truthy params h p' H) as Htr.
  unfold buildFindParameters in H.
  destruct (buildFindParameters_body params) as [[r p1]| |] eqn:Hb;
    try discriminate H. injection H as -> ->.
  pose proof (returned_handle_shared params f h p' Hf Ht Hb) as ->.
  split; [reflexivity|]. now apply base_filter_shared.
Qed.

(** X11.  When the descriptor carries a [find], the filter the compiler
    returns is that very object: once the call is over, reading
    [params.find || {}] gives the compiled filter, search constraint
    included. *)
Theorem supplied_find_becomes_the_compiled_filter (params f : value) (h : handle)
    (p' : value) :
  get params "find" = Return f -> truthy f = true ->
  buildFindParameters params = (Return (Some h), p') ->
  h = Shared /\ base_filter p' = deref p' h /\
  compiled_filter params = Some (base_filter p').
Proof.
  intros Hf Ht H.
  destruct (supplied_find_is_returned params f h p' Hf Ht H) as [Hh Hb].
  repeat split; try assumption.
  unfold compiled_filter. rewrite H. now rewrite Hb.
Qed.

End FilterCompilerMore.

Lemma empty_search_text_returns_the_base_filter_witness :
  buildFindParameters empty_text_request = (Return (Some Shared), empty_text_request) /\
  compiled_filter empty_text_request = Some (VObj [("active", VBool true)]).
Proof.
  exact (@empty_search_text_returns_the_base_filter mini_engine empty_text_request
           (VArr [column "name" (VStr "maybe") (VStr "true")])
           (search EmptyString false) eq_refl eq_refl eq_refl eq_refl eq_refl).
Defined.

Lemma non_string_search_value_throws_witness :
  buildFindParameters number_search_request = (Throw TypeError, number_search_request).
Proof.
  apply (@non_string_search_value_throws mini_engine number_search_request
           name_column (VObj [("value", num 5); ("smart", VBool false)]) (num 5));
    try reflexivity.
  intros s. discriminate.
Defined.

Lemma no_find_no_modification_witness :
  snd (buildFindParameters no_searchable_request) = no_searchable_request /\
  base_filter (snd (buildFindParameters no_searchable_request)) = VObj [].
Proof.
  apply (@no_find_no_modification mini_engine no_searchable_request).
  intros f H. injection H as <-. reflexivity.
Defined.

Lemma single_field_extends_the_base_filter_witness :
  compiled_filter active_request =
    Some (VObj [("active", VBool true); ("name", VRegExp "jo" "i")]).
Proof.
  apply (@single_field_extends_the_base_filter mini_engine active_request "jo"
           (VBool false) (VStr "name") "name" [("active", VBool true)]);
    try reflexivity.
  constructor.
  - eexists. now split.
  - exists (search "jo" false). now repeat split.
  - discriminate.
Defined.

Lemma supplied_find_becomes_the_compiled_filter_witness :
  base_filter (snd (buildFindParameters active_request)) =
    VObj [("active", VBool true); ("name", VRegExp "jo" "i")].
Proof.
  assert (H : buildFindParameters active_request =
              (Return (Some Shared), snd (buildFindParameters active_request)))
    by (vm_compute; reflexivity).
  destruct (@supplied_find_becomes_the_compiled_filter mini_engine active_request
              (VObj [("active", VBool true)]) Shared
              (snd (buildFindParameters active_request))
              eq_refl eq_refl H) as (_ & Hb & _).
  rewrite Hb. reflexivity.
Defined.

(** ** Projection Compiler *)

Lemma set_prop_keys_in (k x : string) (v : value) (o : props) :
  In x (map fst (set_prop k v o)) <-> x = k \/ In x (map fst o).
Proof.
  induction o as [|[k' v'] o IH]; simpl.
  - split; [intros [<-|[]]; now left | intros [->|[]]; now left].
  - destruct (String.eqb_spec k k') as [->|Hne]; simpl.
    + intuition (subst; auto).
    + rewrite IH. intuition (subst; auto).
Qed.

Lemma set_prop_NoDup (k : string) (v : value) (o : props) :
  NoDup (map fst o) -> NoDup (map fst (set_prop k v o)).
Proof.
  induction o as [|[k' v'] o IH]; simpl; intros Hnd.
  - constructor; [intros [] | constructor].
  - inversion Hnd as [|x l Hnotin Hnd']; subst.
    destruct (String.eqb_spec k k') as [->|Hne]; simpl.
    + now constructor.
    + constructor; [|now apply IH].
      rewrite set_prop_keys_in. intros [->|Hin]; [now apply Hne | contradiction].
Qed.

Section ProjectionCompiler.
Context {E : Engine}.

(** The projection after the columns [cols], from the projection [acc]. *)
Lemma select_fields_fold (cols : list value) :
  forall acc,
    select_fields acc cols =
    (keys <- select_keys cols ;;
     Return (fold_left (fun o k => assign_prop k (VNum num_one) o) keys acc)).
Proof.
  unfold select_keys. induction cols as [|col cols IH]; intros acc; [reflexivity|].
  cbn [select_fields mapM].
  destruct (get col "data") as [d| |]; cbn [bind]; try reflexivity.
  destruct (ToPropertyKey d) as [k| |]; cbn [bind]; try reflexivity.
  rewrite IH.
  change (mapM (fun column => d0 <- get column "data";; ToPropertyKey d0) cols)
    with (select_keys cols).
  unfold select_keys.
  now destruct (mapM (fun column => d0 <- get column "data";; ToPropertyKey d0) cols).
Qed.

Lemma fold_set_prop_lookup (keys : list string) :
  forall acc k,
    lookup "__proto__" acc = None ->
    lookup k (fold_left (fun o x => assign_prop x (VNum num_one) o) keys acc) =
    if existsb (String.eqb k) keys && negb (String.eqb k "__proto__")
    then Some (VNum num_one) else lookup k acc.
Proof.
  induction keys as [|x keys IH]; intros acc k Hacc; [reflexivity|].
  cbn [fold_left existsb].
  destruct (String.eqb_spec x "__proto__") as [->|Hx].
  - unfold assign_prop at 2. cbn [String.eqb Ascii.eqb Bool.eqb].
    rewrite Hacc, (IH acc k Hacc).
    destruct (String.eqb_spec k "__proto__") as [->|Hk].
    + now rewrite !andb_false_r.
    + reflexivity.
  - rewrite (assign_prop_other x _ acc Hx).
    rewrite IH by (now rewrite lookup_set_prop_other by congruence).
    destruct (String.eqb_spec k x) as [->|Hne]; cbn [orb].
    + destruct (String.eqb_spec x "__proto__"); [contradiction|].
      rewrite lookup_set_prop_same.
      now destruct (existsb (String.eqb x) keys).
    + now rewrite lookup_set_prop_other by assumption.
Qed.

Lemma fold_set_prop_NoDup (keys : list string) :
  forall acc,
    NoDup (map fst acc) ->
    NoDup (map fst (fold_left (fun o x => assign_prop x (VNum num_one) o) keys acc)).
Proof.
  induction keys as [|x keys IH]; intros acc Hnd; [exact Hnd|].
  cbn [fold_left]. apply IH. unfold assign_prop.
  destruct (String.eqb x "__proto__"); [|now apply set_prop_NoDup].
  destruct (lookup x acc); [now apply set_prop_NoDup | exact Hnd].
Qed.

(** X12.  Over an array of columns whose [data] can serve as property
    names, the projection compiler returns an object that maps exactly
    those names, [__proto__] excepted, to 1: a name other than
    [__proto__] is a key of the projection when, and only when, some
    column carries it, a name that several columns carry is a key once,
    and [__proto__] is never a key.  When reading a column throws (a
    [null] column), the compiler throws the same exception. *)
Theorem projection_names_every_column (params : value) (cols : list value) :
  get params "columns" = Return (VArr cols) ->
  (forall keys,
      select_keys cols = Return keys ->
      exists o,
        buildSelectParameters params = Return (VObj o) /\
        (forall k, lookup k o =
                   if existsb (String.eqb k) keys && negb (String.eqb k "__proto__")
                   then Some (VNum num_one) else None) /\
        NoDup (map fst o)) /\
  (forall e, select_keys cols = Throw e -> buildSelectParameters params = Throw e).
Proof.
  intros Hc.
  assert (Hp : truthy params = true).
  { destruct params as [| |b|n|s|src fl|l|o]; simpl in *;
      try discriminate Hc; try reflexivity; injection Hc as Hc; discriminate Hc. }
  assert (Hb : buildSelectParameters params =
               (o <- select_fields [] cols ;; Return (VObj o))).
  { unfold buildSelectParameters. now rewrite Hp, Hc. }
  rewrite Hb, select_fields_fold. split.
  - intros keys Hk. rewrite Hk. cbn [bind]. eexists. split; [reflexivity|]. split.
    + intros k. now rewrite fold_set_prop_lookup.
    + apply fold_set_prop_NoDup. constructor.
  - intros e Hk. now rewrite Hk.
Qed.

(** X13.  The projection compiler answers [null] exactly for a falsy
    descriptor and for a descriptor whose [columns] is not an array; an
    empty array of columns gives the empty projection, which is an object
    and not [null]. *)
Theorem projection_null_iff_no_column_array (params : value) :
  (buildSelectParameters params = Return VNull <->
   truthy params = false \/
   exists c, get params "columns" = Return c /\ isArray c = false) /\
  (get params "columns" = Return (VArr []) ->
   buildSelectParameters params = Return (VObj [])).
Proof.
  unfold buildSelectParameters.
  destruct (truthy params) eqn:Hp; cbn [negb].
  2:{ split; [split; auto|].
      intros Hc. destruct params; simpl in *; try discriminate Hc;
        try discriminate Hp; injection Hc as Hc; discriminate Hc. }
  destruct (get_total params "columns" Hp) as (c & Hc). rewrite Hc. cbn [bind].
  split.
  - destruct c as [| |b|n|s|src fl|l|o];
      try (split; [intros _; right; eexists; split; [reflexivity | reflexivity]
                  | reflexivity]).
    split.
    + intros H. destruct (select_fields [] l); cbn in H; discriminate H.
    + intros [Hf|(c' & Hc' & Harr)]; [discriminate Hf|].
      injection Hc' as <-. discriminate Harr.
  - intros H. injection H as ->. reflexivity.
Qed.

End ProjectionCompiler.

Lemma projection_names_every_column_witness :
  exists o,
    buildSelectParameters or_request = Return (VObj o) /\
    lookup "email" o = Some (VNum num_one) /\
    lookup "active" o = None.
Proof.
  destruct (@projection_names_every_column mini_engine or_request
              [column "name" (VStr "true") (VStr "true");
               column "email" (VBool true) (VStr "true")] eq_refl) as [H _].
  destruct (H ["name"; "email"] eq_refl) as (o & Ho & Hl & _).
  exists o. split; [exact Ho|]. split; rewrite Hl; reflexivity.
Defined.

(** ** Sort Compiler *)

Section SortCompilerMore.
Context {E : Engine}.


(** X15.  Only the first sort directive counts: replacing what follows it
    in [order] changes nothing to the compiled sort. *)
Theorem sort_reads_the_first_directive_only (ps : props) (order0 : value)
    (rest rest' : list value) :
  lookup "order" ps = Some (VArr (order0 :: rest)) ->
  buildSortParameters (VObj (set_prop "order" (VArr (order0 :: rest')) ps)) =
  buildSortParameters (VObj ps).
Proof.
  intros Ho. unfold buildSortParameters. cbn [truthy negb get bind].
  rewrite lookup_set_prop_same, Ho.
  now rewrite (lookup_set_prop_other "columns" "order") by discriminate.
Qed.

(** X16.  The filter compiler touches nothing but [find]: every other
    property of the descriptor reads after the call as before, and the sort
    and the projection compiled after it are those of the descriptor as
    it was given. *)
Theorem compilers_are_independent_of_the_filter_compiler (params : value) :
  (forall k, k <> "find" ->
             get (snd (buildFindParameters params)) k = get params k) /\
  buildSortParameters (snd (buildFindParameters params)) = buildSortParameters params /\
  buildSelectParameters (snd (buildFindParameters params)) = buildSelectParameters params.
Proof.
  assert (Hs : same_but_find params (snd (buildFindParameters params))).
  { destruct (buildFindParameters params) as [c p'] eqn:H.
    exact (buildFindParameters_frame params c p' H). }
  split; [|split].
  - intros k Hk. now apply same_but_find_get.
  - now apply buildSortParameters_frame.
  - now apply buildSelectParameters_frame.
Qed.

End SortCompilerMore.


Lemma sort_reads_the_first_directive_only_witness :
  buildSortParameters
    (VObj (set_prop "order"
             (VArr [VObj [("column", VStr "0"); ("dir", VStr "asc")];
                    VObj [("column", VStr "1"); ("dir", VStr "desc")]])
             [("columns", two_columns); ("order", first_ascending)])) =
  buildSortParameters (VObj [("columns", two_columns); ("order", first_ascending)]).
Proof.
  exact (@sort_reads_the_first_directive_only mini_engine
           [("columns", two_columns); ("order", first_ascending)]
           (VObj [("column", VStr "0"); ("dir", VStr "asc")]) []
           [VObj [("column", VStr "1"); ("dir", VStr "desc")]] eq_refl).
Defined.

(** ** The orchestrator *)

Section OrchestratorMore.
Context {E : Engine} {S : Type}.
Variable M : Model S.

(** With valid pagination and three truthy compiled values the call goes
    on to the store, on the descriptor the filter compiler left. *)
Lemma run_reaches_store (params : value) (s : S)
    (draw start length : number) (h : handle) (params1 : value)
    (sort sel : value) :
  coerce_pagination params = Return (draw, start, length) ->
  is_nan draw || is_nan start || is_nan length = false ->
  buildFindParameters params = (Return (Some h), params1) ->
  buildSortParameters params = Return sort -> truthy sort = true ->
  buildSelectParameters params = Return sel -> truthy sel = true ->
  run M params s = store_chain M params1 draw start length h sort sel s.
Proof.
  intros Hp Hn Hf Hs Hst Hsel Hselt. unfold run.
  rewrite Hp, Hf.
  pose proof (buildFindParameters_frame _ _ _ Hf) as Hfr.
  rewrite (buildSortParameters_frame _ _ Hfr), Hs.
  rewrite (buildSelectParameters_frame _ _ Hfr), Hsel.
  rewrite isNaNorUndefined_numbers, Hn.
  unfold handle_falsy. rewrite (compiled_handle_truthy _ _ _ Hf), Hst, Hselt.
  reflexivity.
Qed.

(** What the chain of store operations can end in. *)
Lemma store_chain_outcome (params : value) (draw start length : number)
    (h : handle) (sort sel : value) (s : S) :
  let r := store_chain M params draw start length h sort sel s in
  (exists envelope, res_outcome r = Fulfilled envelope /\
                    List.length (res_calls r) = 3) \/
  (exists err pre c,
      res_outcome r = Rejected (Plain (VObj [("error", err)])) /\
      res_calls r = pre ++ [c] /\ List.length pre <= 2 /\
      failed_with M c err).
Proof.
  unfold store_chain.
  destruct (countDocuments M (base_filter params) s) as [[total|err] s1] eqn:H1.
  - destruct (countDocuments M (deref params h) s1) as [[filtered|err] s2] eqn:H2.
    + match goal with
      | |- context [exec M ?q s2] =>
          destruct (exec M q s2) as [[results|err] s3] eqn:H3
      end.
      * left. eexists. split; reflexivity.
      * right. exists err. eexists [_; _]. eexists. cbn.
        repeat split; [lia|]. exists s2, s3. exact H3.
    + right. exists err. eexists [_]. eexists. cbn.
      repeat split; [lia|]. exists s1, s2. exact H2.
  - right. exists err, []. eexists. cbn.
    repeat split; [lia|]. exists s, s1. exact H1.
Qed.

(** The calls of a run are those of its chain of store operations, if it
    gets that far, and none otherwise. *)
Lemma run_stops_or_chains (params : value) (s : S) :
  (exists o p, run M params s = stop o p s /\
     match o with
     | Fulfilled _ | Rejected (Plain _) => False
     | _ => True
     end) \/
  (exists draw start length h sort sel,
     run M params s =
     store_chain M (snd (buildFindParameters params)) draw start length h sort sel s
     /\ fst (buildFindParameters params) = Return (Some h)).
Proof.
  unfold run.
  destruct (coerce_pagination params) as [[[draw start] length]| |];
    [|left; eexists; eexists; split; [reflexivity|exact I] ..].
  destruct (buildFindParameters params) as [[f| |] p1];
    [|left; eexists; eexists; split; [reflexivity|exact I] ..].
  destruct (buildSortParameters p1) as [sort| |];
    [|left; eexists; eexists; split; [reflexivity|exact I] ..].
  destruct (buildSelectParameters p1) as [sel| |];
    [|left; eexists; eexists; split; [reflexivity|exact I] ..].
  destruct (isNaNorUndefined _) as [[|]| |];
    try (left; eexists; eexists; split; [reflexivity|exact I]).
  destruct f as [h|];
    [|left; eexists; eexists; split; [reflexivity|exact I]].
  destruct (handle_falsy p1 (Some h) || negb (truthy sort) || negb (truthy sel));
    [left; eexists; eexists; split; [reflexivity|exact I]|].
  right. exists draw, start, length, h, sort, sel. split; reflexivity.
Qed.

(** X17.  A falsy descriptor never reaches the store: [undefined] and
    [null] make the call throw a [TypeError], every other falsy value
    ([false], [0], [NaN], the empty string) rejects the promise with the
    pagination message. *)
Theorem falsy_descriptor_never_reaches_the_store (params : value) (s : S) :
  truthy params = false ->
  run M params s =
    stop (if is_nullish params then Threw TypeError
          else Rejected (ErrorObject pagination_message)) params s.
Proof.
  intros H.
  destruct params as [| |[|]|n|[|c str]|src fl|l|o]; try discriminate H;
    try reflexivity.
  unfold run, buildFindParameters, buildFindParameters_body,
    buildSortParameters, buildSelectParameters.
  cbn -[truthy]. rewrite !H. cbn -[truthy]. rewrite !H. reflexivity.
Qed.

(** X18.  A call that throws, or whose promise is rejected with an
    [Error], has issued no store operation and left the store as it was;
    a fulfilled promise stands for exactly three operations, and a promise
    rejected with a plain value for one to three. *)
Theorem store_is_untouched_unless_validation_passes (params : value) (s : S) :
  let r := run M params s in
  match res_outcome r with
  | Fulfilled _ => List.length (res_calls r) = 3
  | Rejected (Plain _) => 1 <= List.length (res_calls r) <= 3
  | _ => res_calls r = [] /\ res_store r = s
  end.
Proof.
  cbv zeta.
  destruct (run_stops_or_chains params s)
    as [(o & p & -> & Ho) | (draw & start & length & h & sort & sel & -> & _)].
  - cbn. destruct o as [e| |[m|e|v]|env]; try (split; reflexivity);
      contradiction.
  - destruct (store_chain_outcome (snd (buildFindParameters params))
                draw start length h sort sel s)
      as [(env & -> & Hl) | (err & pre & c & -> & -> & Hl & _)].
    + exact Hl.
    + rewrite length_app. cbn. lia.
Qed.

(** X19.  Whenever the promise is rejected with a plain value, that value
    is an object whose one property [error] holds what the last store
    operation issued was rejected with; at most two operations came
    before it and none after. *)
Theorem store_failure_is_wrapped (params : value) (s : S) (v : value) :
  res_outcome (run M params s) = Rejected (Plain v) ->
  exists err pre c,
    v = VObj [("error", err)] /\
    res_calls (run M params s) = pre ++ [c] /\
    List.length pre <= 2 /\
    failed_with M c err.
Proof.
  destruct (run_stops_or_chains params s)
    as [(o & p & -> & Ho) | (draw & start & length & h & sort & sel & -> & _)].
  - cbn. intros ->. contradiction.
  - destruct (store_chain_outcome (snd (buildFindParameters params))
                draw start length h sort sel s)
      as [(env & -> & Hl) | (err & pre & c & -> & -> & Hl & Hc)].
    + discriminate.
    + intros H. injection H as <-. exists err, pre, c. auto.
Qed.

(** X20.  With valid pagination and three truthy compiled values, and a
    store that answers, the run counts [params.find || {}], then counts
    the compiled filter, then executes one query carrying the compiled
    filter, the projection, [Number(params.length)] as limit,
    [Number(params.start)] as skip and the sort, populated with
    [params.populate] exactly when that is truthy; each operation sees
    the store the one before left, and the envelope holds the coerced
    draw, the two counts and the results. *)
Theorem fulfilled_run (params : value) (s s1 s2 s3 : S)
    (draw start length : number) (h : handle) (params1 : value)
    (sort sel populate total filtered results : value) :
  coerce_pagination params = Return (draw, start, length) ->
  is_nan draw || is_nan start || is_nan length = false ->
  buildFindParameters params = (Return (Some h), params1) ->
  buildSortParameters params = Return sort -> truthy sort = true ->
  buildSelectParameters params = Return sel -> truthy sel = true ->
  get params "populate" = Return populate ->
  let q := {| q_filter := deref params1 h;
              q_select := sel;
              q_limit := length;
              q_skip := start;
              q_sort := sort;
              q_populate := if truthy populate then Some populate else None |} in
  countDocuments M (base_filter params1) s = (Resolved total, s1) ->
  countDocuments M (deref params1 h) s1 = (Resolved filtered, s2) ->
  exec M q s2 = (Resolved results, s3) ->
  run M params s =
    {| res_outcome :=
         Fulfilled (VObj [("draw", VNum draw); ("recordsTotal", total);
                          ("recordsFiltered", filtered); ("data", results)]);
       res_calls := [CountDocuments (base_filter params1);
                     CountDocuments (deref params1 h);
                     FindExec q];
       res_store := s3;
       res_params := params1 |}.
Proof.
  intros Hp Hn Hf Hs Hst Hsel Hselt Hpop q Hc1 Hc2 Hex.
  rewrite (run_reaches_store params s draw start length h params1 sort sel
             Hp Hn Hf Hs Hst Hsel Hselt).
  unfold store_chain. rewrite Hc1, Hc2.
  pose proof (buildFindParameters_frame _ _ _ Hf) as Hfr.
  rewrite (same_but_find_get _ _ "populate" Hfr) by discriminate.
  rewrite Hpop. fold q. rewrite Hex. reflexivity.
Qed.

(** X21.  When the descriptor carries a truthy [find], the first two store
    operations of a run, if it issues two, are the same count: the total
    is counted on the compiled filter. *)
Theorem supplied_find_is_counted_twice (params f : value) (s : S)
    (c1 c2 : call) (rest : list call) :
  get params "find" = Return f -> truthy f = true ->
  res_calls (run M params s) = c1 :: c2 :: rest ->
  c1 = c2.
Proof.
  intros Hf Ht.
  destruct (run_stops_or_chains params s)
    as [(o & p & -> & Ho) | (draw & start & length & h & sort & sel & -> & Hh)].
  - discriminate.
  - destruct (buildFindParameters params) as [c p1] eqn:Hb. cbn in Hh |- *.
    subst c.
    destruct (supplied_find_is_returned params f h p1 Hf Ht Hb) as [_ Heq].
    unfold store_chain. rewrite Heq.
    destruct (countDocuments M (deref p1 h) s) as [[total|err] s1];
      [|discriminate].
    destruct (countDocuments M (deref p1 h) s1) as [[filtered|err] s2].
    + match goal with
      | |- context [exec M ?q s2] => destruct (exec M q s2) as [[results|err] s3]
      end; cbn; intros H; injection H as <- <- _; reflexivity.
    + cbn; intros H; injection H as <- <- _; reflexivity.
Qed.

(** X22.  When the descriptor carries no truthy [find], a run leaves the
    descriptor as it was, and its first store operation, if it issues
    one, counts the empty filter. *)
Theorem absent_find_is_counted_on_the_empty_filter (params : value) (s : S) :
  (forall f, get params "find" = Return f -> truthy f = false) ->
  res_params (run M params s) = params /\
  forall c rest, res_calls (run M params s) = c :: rest ->
                 c = CountDocuments (VObj []).
Proof.
  intros Hf.
  pose proof (falsy_find_unchanged params Hf) as Hsame.
  pose proof (falsy_find_base_filter params Hf) as Hbase.
  split.
  - unfold run.
    destruct (coerce_pagination params) as [[[draw start] length]| |];
      try reflexivity.
    destruct (buildFindParameters params) as [c p1]. cbn in Hsame. subst p1.
    destruct c as [fp| |]; try reflexivity.
    destruct (buildSortParameters params) as [sort| |]; try reflexivity.
    destruct (buildSelectParameters params) as [sel| |]; try reflexivity.
    destruct (isNaNorUndefined _) as [[|]| |]; try reflexivity.
    destruct fp as [h|]; try reflexivity.
    destruct (handle_falsy params (Some h) || negb (truthy sort) || negb (truthy sel));
      try reflexivity.
    unfold store_chain.
    destruct (countDocuments M _ s) as [[total|err] s1]; [|reflexivity].
    destruct (countDocuments M _ s1) as [[filtered|err] s2]; [|reflexivity].
    match goal with
    | |- context [exec M ?q s2] => destruct (exec M q s2) as [[results|err] s3]
    end; reflexivity.
  - intros c rest.
    destruct (run_stops_or_chains params s)
      as [(o & p & -> & Ho) | (draw & start & length & h & sort & sel & -> & Hh)].
    + discriminate.
    + rewrite Hsame. unfold store_chain. rewrite Hbase.
      destruct (countDocuments M (VObj []) s) as [[total|err] s1].
      * destruct (countDocuments M _ s1) as [[filtered|err] s2].
        -- match goal with
           | |- context [exec M ?q s2] => destruct (exec M q s2) as [[results|err] s3]
           end; cbn; intros H; injection H as <- _; reflexivity.
        -- cbn; intros H; injection H as <- _; reflexivity.
      * cbn; intros H; injection H as <- _; reflexivity.
Qed.

(** X23.  The promise is rejected with the query message exactly when the
    pagination values are numbers, the three compilers return, and the
    filter is null or the sort or the projection is falsy. *)
Theorem query_rejection_iff (params : value) (s : S) :
  res_outcome (run M params s) = Rejected (ErrorObject query_message) <->
  exists draw start length f params1 sort sel,
    coerce_pagination params = Return (draw, start, length) /\
    is_nan draw || is_nan start || is_nan length = false /\
    buildFindParameters params = (Return f, params1) /\
    buildSortParameters params = Return sort /\
    buildSelectParameters params = Return sel /\
    (f = None \/ truthy sort = false \/ truthy sel = false).
Proof.
  split.
  - unfold run.
    destruct (coerce_pagination params) as [[[draw start] length]| |] eqn:Hp;
      [|discriminate ..].
    destruct (buildFindParameters params) as [[f| |] p1] eqn:Hb;
      [|discriminate ..].
    pose proof (buildFindParameters_frame _ _ _ Hb) as Hfr.
    rewrite (buildSortParameters_frame _ _ Hfr).
    rewrite (buildSelectParameters_frame _ _ Hfr).
    destruct (buildSortParameters params) as [sort| |] eqn:Hs;
      [|discriminate ..].
    destruct (buildSelectParameters params) as [sel| |] eqn:Hsel;
      [|discriminate ..].
    rewrite isNaNorUndefined_numbers.
    destruct (is_nan draw || is_nan start || is_nan length) eqn:Hn.
    { cbn. intros H. injection H as H. vm_compute in H. discriminate H. }
    intros H. exists draw, start, length, f, p1, sort, sel.
    repeat (split; [assumption || reflexivity|]).
    destruct f as [h|]; [|now left]. right.
    unfold handle_falsy in H. rewrite (compiled_handle_truthy _ _ _ Hb) in H.
    cbn [negb orb] in H.
    destruct (truthy sort); [|now left].
    destruct (truthy sel); [|now right].
    exfalso. cbn [negb orb] in H.
    destruct (store_chain_outcome p1 draw start length h sort sel s)
      as [(env & He & _) | (err & pre & c & He & _)];
      rewrite He in H; discriminate H.
  - intros (draw & start & length & f & p1 & sort & sel &
            Hp & Hn & Hb & Hs & Hsel & Hor).
    unfold run. rewrite Hp, Hb.
    pose proof (buildFindParameters_frame _ _ _ Hb) as Hfr.
    rewrite (buildSortParameters_frame _ _ Hfr), Hs.
    rewrite (buildSelectParameters_frame _ _ Hfr), Hsel.
    rewrite isNaNorUndefined_numbers, Hn.
    destruct f as [h|]; [|reflexivity].
    destruct Hor as [Hor|[Hor|Hor]]; [discriminate Hor| |]; rewrite Hor;
      cbn [negb]; rewrite ?orb_true_r; reflexivity.
Qed.

(** X24.  A descriptor with a search text, whose [columns] is truthy but
    not an array, makes the filter compiler, and with it the call, throw
    a [TypeError] before any promise exists and without touching the
    descriptor, although the projection compiler alone answers null for
    it. *)
Theorem non_array_columns_throw (params columns smart : value) (s : S)
    (text : string) :
  searching params text smart ->
  get params "columns" = Return columns ->
  isArray columns = false ->
  buildFindParameters params = (Throw TypeError, params) /\
  buildSelectParameters params = Return VNull /\
  (forall p, coerce_pagination params = Return p ->
             run M params s = stop (Threw TypeError) params s).
Proof.
  intros Hs Hc Ha.
  assert (Hb : buildFindParameters params = (Throw TypeError, params)).
  { unfold buildFindParameters.
    rewrite (buildFindParameters_body_searching params text smart Hs).
    unfold getSearchableFields. rewrite Hc. cbn [bind].
    destruct columns; try reflexivity. discriminate Ha. }
  split; [exact Hb|]. split.
  - unfold buildSelectParameters.
    destruct (negb (truthy params)); [reflexivity|].
    rewrite Hc. cbn [bind].
    destruct columns; try discriminate Ha;
      repeat match goal with
             | |- context [if ?b then _ else _] => destruct b
             end; reflexivity.
  - intros [[draw start] length] Hp. unfold run. rewrite Hp, Hb. reflexivity.
Qed.

(** X25.  On numbers the validator answers whether one of them is NaN,
    its tests for undefined and null never deciding; an undefined or
    null argument after numbers makes it answer true, whatever comes
    after. *)
Theorem validator_contract (ns : list number) (v : value) (rest : list value) :
  isNaNorUndefined (map VNum ns) = Return (existsb is_nan ns) /\
  (is_nullish v = true ->
   isNaNorUndefined (map VNum ns ++ v :: rest) = Return true).
Proof.
  unfold isNaNorUndefined. split.
  - induction ns as [|n ns IH]; [reflexivity|].
    cbn. rewrite orb_false_r. destruct (is_nan n); [reflexivity|exact IH].
  - intros Hv. induction ns as [|n ns IH].
    + destruct v; try discriminate Hv; reflexivity.
    + cbn. rewrite orb_false_r. destruct (is_nan n); [reflexivity|exact IH].
Qed.

End OrchestratorMore.

Lemma falsy_descriptor_never_reaches_the_store_witness :
  run (memory_store people) (VStr EmptyString) tt =
    stop (Rejected (ErrorObject pagination_message)) (VStr EmptyString) tt.
Proof.
  apply (@falsy_descriptor_never_reaches_the_store mini_engine unit
           (memory_store people) (VStr EmptyString) tt).
  reflexivity.
Defined.

Lemma store_failure_is_wrapped_witness :
  exists err pre c,
    VObj [("error", VStr "down")] = VObj [("error", err)] /\
    res_calls (run (flaky_store 1 (VStr "down")) populated_request 0) = pre ++ [c] /\
    List.length pre <= 2 /\
    failed_with (flaky_store 1 (VStr "down")) c err.
Proof.
  apply (@store_failure_is_wrapped mini_engine nat (flaky_store 1 (VStr "down"))
           populated_request 0 (VObj [("error", VStr "down")])).
  vm_compute. reflexivity.
Defined.

Lemma fulfilled_run_witness :
  run (flaky_store 5 VNull) populated_request 0 =
    {| res_outcome :=
         Fulfilled (VObj [("draw", num 1); ("recordsTotal", num 0);
                          ("recordsFiltered", num 1); ("data", VArr [])]);
       res_calls :=
         [CountDocuments (VObj []);
          CountDocuments (VObj [("name", VRegExp "jo" "i")]);
          FindExec {| q_filter := VObj [("name", VRegExp "jo" "i")];
                      q_select := VObj [("name", num 1)];
                      q_limit := number_of_nat 10;
                      q_skip := number_of_nat 0;
                      q_sort := VObj [("name", num 1)];
                      q_populate := Some (VStr "owner") |}];
       res_store := 3;
       res_params := populated_request |}.
Proof.
  apply (@fulfilled_run mini_engine nat (flaky_store 5 VNull)
           populated_request 0 1 2 3
           (number_of_nat 1) (number_of_nat 0) (number_of_nat 10)
           (Fresh (VObj [("name", VRegExp "jo" "i")])) populated_request
           (VObj [("name", num 1)]) (VObj [("name", num 1)]) (VStr "owner")
           (num 0) (num 1) (VArr []));
    vm_compute; reflexivity.
Defined.

Lemma supplied_find_is_counted_twice_witness :
  CountDocuments (VObj [("active", VBool true); ("name", VRegExp "jo" "i")]) =
  CountDocuments (VObj [("active", VBool true); ("name", VRegExp "jo" "i")]).
Proof.
  apply (@supplied_find_is_counted_twice mini_engine unit (memory_store people)
           active_request (VObj [("active", VBool true)]) tt
           (CountDocuments (VObj [("active", VBool true); ("name", VRegExp "jo" "i")]))
           (CountDocuments (VObj [("active", VBool true); ("name", VRegExp "jo" "i")]))
           [FindExec {| q_filter := VObj [("active", VBool true);
                                          ("name", VRegExp "jo" "i")];
                        q_select := VObj [("name", num 1)];
                        q_limit := number_of_nat 10;
                        q_skip := number_of_nat 0;
                        q_sort := VObj [("name", num 1)];
                        q_populate := None |}]);
    vm_compute; reflexivity.
Defined.

Lemma absent_find_is_counted_on_the_empty_filter_witness :
  res_params (run (flaky_store 5 VNull) populated_request 0) = populated_request /\
  forall c rest,
    res_calls (run (flaky_store 5 VNull) populated_request 0) = c :: rest ->
    c = CountDocuments (VObj []).
Proof.
  apply (@absent_find_is_counted_on_the_empty_filter mini_engine nat
           (flaky_store 5 VNull) populated_request 0).
  intros f H. injection H as <-. reflexivity.
Defined.

Lemma searching_string_columns_request :
  searching string_columns_request "jo" (VBool false).
Proof.
  split.
  - exists (VStr "name"). split; reflexivity.
  - exists (search "jo" false). repeat split; reflexivity.
  - discriminate.
Qed.

Lemma non_array_columns_throw_witness :
  buildFindParameters string_columns_request =
    (Throw TypeError, string_columns_request) /\
  buildSelectParameters string_columns_request = Return VNull /\
  (forall p, coerce_pagination string_columns_request = Return p ->
             run empty_store string_columns_request tt =
             stop (Threw TypeError) string_columns_request tt).
Proof.
  apply (@non_array_columns_throw mini_engine unit empty_store
           string_columns_request (VStr "name") (VBool false) tt "jo"
           searching_string_columns_request eq_refl eq_refl).
Defined.
